(** * translate-plugin: the translation relay, the selection/popup component
      and the settings form

    A shallow embedding of
      - [src/background/messages/translate.ts]  (the relay [handler]),
      - [src/contents/translate.jsx]            (the [TranslateContent]
        component with its [ResultPopup], [DraggableBox] and
        [CollapsibleText]) and
      - the [Setting] form,
    together with the properties of these that the specification
    states and further ones that the code shows.

    JavaScript strings are sequences of UTF-16 code units, JSON data is
    an inductive type of values, exceptions are threaded through an
    error monad, the single [fetch] of the relay is an oracle whose
    calls are recorded, and a React component is a record of its
    [useState]/[useRef] cells stepped by the events of the page. *)

From Stdlib Require Import ZArith List Bool String Ascii Lia QArith.
From Stdlib Require Import DecimalString.
Import ListNotations.
Open Scope Z_scope.

Set Implicit Arguments.

(* ================================================================== *)
(** ** JavaScript strings *)

Module JsString.

(** A string is its list of UTF-16 code units, each in [0, 65536). *)
Definition jsstring := list Z.

Definition eqb (a b : jsstring) : bool :=
  if list_eq_dec Z.eq_dec a b then true else false.

(** Source text of this file is UTF-8; [utf16] turns a literal into
    the code units a JavaScript engine holds for it.  Code points
    above the basic plane become a surrogate pair. *)
Definition byte_of (c : ascii) : Z := Z.of_N (N_of_ascii c).

Definition cont (b : Z) : Z := Z.land b 63.

Definition units_of_code_point (cp : Z) : jsstring :=
  if cp <? 65536 then [cp]
  else let v := cp - 65536 in
       [55296 + Z.shiftr v 10; 56320 + Z.land v 1023].

Fixpoint utf16_bytes (bs : list Z) : jsstring :=
  match bs with
  | [] => []
  | b0 :: r0 =>
      if b0 <? 128 then b0 :: utf16_bytes r0
      else match r0 with
      | b1 :: r1 =>
          if b0 <? 224 then
            (Z.shiftl (Z.land b0 31) 6 + cont b1) :: utf16_bytes r1
          else match r1 with
          | b2 :: r2 =>
              if b0 <? 240 then
                (Z.shiftl (Z.land b0 15) 12 + Z.shiftl (cont b1) 6 + cont b2)
                  :: utf16_bytes r2
              else match r2 with
              | b3 :: r3 =>
                  units_of_code_point
                    (Z.shiftl (Z.land b0 7) 18 + Z.shiftl (cont b1) 12
                     + Z.shiftl (cont b2) 6 + cont b3)
                    ++ utf16_bytes r3
              | [] => []
              end
          | [] => []
          end
      | [] => []
      end
  end.

Definition utf16 (s : string) : jsstring :=
  utf16_bytes (map byte_of (list_ascii_of_string s)).

(** [String.prototype.trim] strips WhiteSpace and LineTerminator code
    units (ECMA-262, 12.2 and 12.3) from both ends. *)
Definition is_space (c : Z) : bool :=
  (c =? 9) || (c =? 10) || (c =? 11) || (c =? 12) || (c =? 13)
  || (c =? 32) || (c =? 160) || (c =? 5760)
  || ((8192 <=? c) && (c <=? 8202))
  || (c =? 8232) || (c =? 8233) || (c =? 8239) || (c =? 8287)
  || (c =? 12288) || (c =? 65279).

Fixpoint trim_start (s : jsstring) : jsstring :=
  match s with
  | c :: r => if is_space c then trim_start r else s
  | [] => []
  end.

Definition trim (s : jsstring) : jsstring :=
  rev (trim_start (rev (trim_start s))).

(** Decimal digits of an integer, as [Number.prototype.toString]
    prints an integer-valued number of magnitude below 10^21. *)
Definition of_Z (z : Z) : jsstring :=
  map byte_of
      (list_ascii_of_string (NilZero.string_of_int (Z.to_int z))).

End JsString.
Import JsString.

Notation "a +++ b" := (@app Z a b) (at level 60, right associativity).

(* ================================================================== *)
(** ** JavaScript values and exceptions *)

(** The values the two programs handle are JSON data (the request of
    the messaging layer, the provider's response body, the stored
    settings) and [undefined].  Numbers are the integer-valued ones:
    the programs only test a number for truthiness, compare it with
    zero and print it. *)
#[warnings="-register-all"]
Inductive jsval : Type :=
| JUndefined
| JNull
| JBool (b : bool)
| JNum (n : Z)
| JStr (s : jsstring)
| JArr (items : list jsval)
| JObj (props : list (jsstring * jsval)).

(** What a [throw] carries.  [Error] is the [new Error(message)] of
    the source; the others are raised by the engine or by [fetch]. *)
Inductive jserror : Type :=
| Error (message : jsstring)
| TypeError_read (base : jsval) (key : jsstring)
| TypeError_call (key : jsstring)
| TypeError_convert
| SyntaxError_json (text : jsstring)
| FetchError (message : jsstring).

(** The parts of the platform that are not code of the repository.
    [JSON_parse] is [JSON.parse] ([None]: it throws a SyntaxError),
    [StringToNumber_positive s] tells whether [Number(s) > 0], and
    [engine_message] is the [message] text of an engine-made error. *)
Record Host : Type := {
  JSON_parse : jsstring -> option jsval;
  StringToNumber_positive : jsstring -> bool;
  engine_message : jserror -> jsstring
}.

Definition error_message (h : Host) (e : jserror) : jsstring :=
  match e with
  | Error m => m
  | FetchError m => m
  | _ => engine_message h e
  end.

(** *** Computations that may throw *)

Module Js.

Definition M (A : Type) : Type := (jserror + A)%type.

Definition ret {A} (a : A) : M A := inr a.
Definition throw {A} (e : jserror) : M A := inl e.

Definition bind {A B} (m : M A) (k : A -> M B) : M B :=
  match m with
  | inl e => inl e
  | inr a => k a
  end.

(** [try { body } catch (e) { handler e }] *)
Definition try_catch {A} (body : M A) (handler : jserror -> M A) : M A :=
  match body with
  | inl e => handler e
  | inr a => inr a
  end.

End Js.

Notation "x <- m ;; k" := (Js.bind m (fun x => k))
  (at level 61, m at next level, right associativity).

(** *** Property reads *)

Fixpoint lookup (ps : list (jsstring * jsval)) (k : jsstring) : option jsval :=
  match ps with
  | [] => None
  | (k', v) :: r => if eqb k' k then Some v else lookup r k
  end.

Definition or_undefined (o : option jsval) : jsval :=
  match o with
  | Some v => v
  | None => JUndefined
  end.

Definition digit_value (c : Z) : option Z :=
  if (48 <=? c) && (c <=? 57) then Some (c - 48) else None.

Fixpoint digits_value (acc : Z) (s : jsstring) : option Z :=
  match s with
  | [] => Some acc
  | c :: r =>
      match digit_value c with
      | Some d => digits_value (10 * acc + d) r
      | None => None
      end
  end.

(** A property key that is a canonical array index. *)
Definition index_of_key (k : jsstring) : option nat :=
  match k with
  | [] => None
  | _ => match digits_value 0 k with
         | Some n => if eqb (of_Z n) k then Some (Z.to_nat n) else None
         | None => None
         end
  end.

Definition key_length : jsstring := Eval vm_compute in utf16 "length".

(** [v[k]] / [v.k].  Reading from [undefined] or [null] throws; a
    string and an array answer [length] and their indices; an object
    answers its own properties.  Inherited members are not modelled:
    none of the keys the programs read names one. *)
Definition get (v : jsval) (k : jsstring) : Js.M jsval :=
  match v with
  | JUndefined | JNull => Js.throw (TypeError_read v k)
  | JBool _ | JNum _ => Js.ret JUndefined
  | JStr s =>
      if eqb k key_length then Js.ret (JNum (Z.of_nat (List.length s)))
      else match index_of_key k with
           | Some i => Js.ret (match nth_error s i with
                               | Some c => JStr [c]
                               | None => JUndefined
                               end)
           | None => Js.ret JUndefined
           end
  | JArr l =>
      if eqb k key_length then Js.ret (JNum (Z.of_nat (List.length l)))
      else match index_of_key k with
           | Some i => Js.ret (or_undefined (nth_error l i))
           | None => Js.ret JUndefined
           end
  | JObj ps => Js.ret (or_undefined (lookup ps k))
  end.

Definition is_nullish (v : jsval) : bool :=
  match v with
  | JUndefined | JNull => true
  | _ => false
  end.

(** [v?.k] *)
Definition get_opt (v : jsval) (k : jsstring) : Js.M jsval :=
  if is_nullish v then Js.ret JUndefined else get v k.

(** *** Conversions *)

(** ToBoolean *)
Definition truthy (v : jsval) : bool :=
  match v with
  | JUndefined | JNull => false
  | JBool b => b
  | JNum n => negb (n =? 0)
  | JStr [] => false
  | JStr (_ :: _) => true
  | JArr _ | JObj _ => true
  end.

Definition key_toString : jsstring := Eval vm_compute in utf16 "toString".
Definition str_undefined : jsstring := Eval vm_compute in utf16 "undefined".
Definition str_null : jsstring := Eval vm_compute in utf16 "null".
Definition str_true : jsstring := Eval vm_compute in utf16 "true".
Definition str_false : jsstring := Eval vm_compute in utf16 "false".
Definition str_object : jsstring := Eval vm_compute in utf16 "[object Object]".
Definition comma : Z := 44.

(** ToString.  An array prints its elements joined by commas,
    [null] and [undefined] elements as nothing; an object prints as
    [[object Object]] unless an own [toString] property, which JSON
    data cannot make callable, hides the inherited method: then the
    conversion throws. *)
Fixpoint ToString (v : jsval) : Js.M jsstring :=
  match v with
  | JUndefined => Js.ret str_undefined
  | JNull => Js.ret str_null
  | JBool true => Js.ret str_true
  | JBool false => Js.ret str_false
  | JNum n => Js.ret (of_Z n)
  | JStr s => Js.ret s
  | JArr l =>
      (fix join (l : list jsval) : Js.M jsstring :=
         match l with
         | [] => Js.ret []
         | x :: r =>
             a <- (if is_nullish x then Js.ret [] else ToString x) ;;
             match r with
             | [] => Js.ret a
             | _ => b <- join r ;; Js.ret (a +++ comma :: b)
             end
         end) l
  | JObj ps =>
      match lookup ps key_toString with
      | Some _ => Js.throw TypeError_convert
      | None => Js.ret str_object
      end
  end.

(** [v > 0]: [v] is made a primitive, then a number. *)
Definition gt_zero (h : Host) (v : jsval) : Js.M bool :=
  match v with
  | JUndefined | JNull => Js.ret false
  | JBool b => Js.ret b
  | JNum n => Js.ret (0 <? n)
  | JStr s => Js.ret (StringToNumber_positive h s)
  | JArr _ | JObj _ =>
      s <- ToString v ;; Js.ret (StringToNumber_positive h s)
  end.

(** [a || b], with [b] evaluated only when needed. *)
Definition or_else (a b : jsval) : jsval := if truthy a then a else b.

(** *** Regular expressions

    Both programs use one regular expression, a single character class
    searched anywhere in the text, without the [u] flag: it inspects
    code units. *)
Inductive regex : Type :=
| CharRange (lo hi : Z).

Definition regex_test (r : regex) (s : jsstring) : bool :=
  match r with
  | CharRange lo hi => existsb (fun c => (lo <=? c) && (c <=? hi)) s
  end.

(* ================================================================== *)
(** ** The translation relay: [src/background/messages/translate.ts] *)

Module Relay.

Definition quote : jsstring := [34].

Definition json_format_hint : jsstring := Eval vm_compute in
  utf16 "请以JSON格式输出，格式为：{" +++ quote +++ utf16 "translation"
  +++ quote +++ utf16 ": " +++ quote +++ utf16 "翻译后的文本" +++ quote
  +++ utf16 "}".

(** The two system prompts of lines 19 and 20. *)
Definition prompt_to_english : jsstring := Eval vm_compute in
  utf16 "你是一个专业的翻译助手。请将用户提供的中文文本翻译成英文，保持文本的原意和语气。只返回翻译结果，不需要解释。"
  +++ json_format_hint.

Definition prompt_to_chinese : jsstring := Eval vm_compute in
  utf16 "你是一个专业的翻译助手。请将用户提供的文本翻译成中文，保持文本的原意和语气。只返回翻译结果，不需要解释。"
  +++ json_format_hint.

Definition msg_missing_key : jsstring := Eval vm_compute in
  utf16 "缺少API密钥配置".
Definition msg_api_error : jsstring := Eval vm_compute in
  utf16 "API错误: ".
Definition msg_bad_format : jsstring := Eval vm_compute in
  utf16 "API返回数据格式不符合预期".
Definition msg_no_result : jsstring := Eval vm_compute in
  utf16 "获取翻译结果失败".
Definition default_url : jsstring := Eval vm_compute in
  utf16 "https://api.deepseek.com/v1/chat/completions".
Definition default_model : jsstring := Eval vm_compute in
  utf16 "deepseek-chat".
Definition bearer : jsstring := Eval vm_compute in utf16 "Bearer ".

Definition k_text : jsstring := Eval vm_compute in utf16 "text".
Definition k_apiConfig : jsstring := Eval vm_compute in utf16 "apiConfig".
Definition k_apiKey : jsstring := Eval vm_compute in utf16 "apiKey".
Definition k_apiUrl : jsstring := Eval vm_compute in utf16 "apiUrl".
Definition k_model : jsstring := Eval vm_compute in utf16 "model".
Definition k_error : jsstring := Eval vm_compute in utf16 "error".
Definition k_message : jsstring := Eval vm_compute in utf16 "message".
Definition k_choices : jsstring := Eval vm_compute in utf16 "choices".
Definition k_0 : jsstring := Eval vm_compute in utf16 "0".
Definition k_content : jsstring := Eval vm_compute in utf16 "content".
Definition k_translation : jsstring := Eval vm_compute in
  utf16 "translation".
Definition k_trim : jsstring := Eval vm_compute in utf16 "trim".

(** The regular expression literal of line 16. *)
Definition chinese_regex : regex := CharRange 0x4e00 0x9fa5.

(** The call [fetch(apiUrl, { method, headers, body })] of lines
    28-53; [body] is kept as the object given to [JSON.stringify]. *)
Record http_request : Type := {
  url : jsstring;
  method : jsstring;
  content_type : jsstring;
  authorization : jsstring;
  model : jsval;
  system_content : jsstring;
  user_content : jsval;
  temperature : Q;
  response_format : jsstring;
  max_tokens : Z
}.

(** What the awaited [fetch] gives: a rejection, or a response with
    its [ok] flag, its [statusText] and the text of its body. *)
Inductive fetch_outcome : Type :=
| Rejected (message : jsstring)
| Response (ok : bool) (statusText : jsstring) (body : jsstring).

(** The object given to [res.send]; a field that the object literal
    does not mention is [None]. *)
Record response : Type := {
  success : bool;
  result : option jsval;
  error : option jsval
}.

(** [a.k1.k2...], read from left to right. *)
Fixpoint get_path (v : jsval) (ks : list jsstring) : Js.M jsval :=
  match ks with
  | [] => Js.ret v
  | k :: r => w <- get v k ;; get_path w r
  end.

(** [v.trim()]: the method exists on strings only. *)
Definition call_trim (v : jsval) : Js.M jsstring :=
  match v with
  | JStr s => Js.ret (trim s)
  | JUndefined | JNull => Js.throw (TypeError_read v k_trim)
  | _ => Js.throw (TypeError_call k_trim)
  end.

Section Handler.

Variable h : Host.
Variable fetch : http_request -> fetch_outcome.

(** [response.json()] and [JSON.parse(text)] *)
Definition parse_json (text : jsstring) : Js.M jsval :=
  match JSON_parse h text with
  | Some v => Js.ret v
  | None => Js.throw (SyntaxError_json text)
  end.

(** Lines 6-53 up to the call itself: everything that is evaluated
    before [fetch] is entered. *)
Definition build_request (body : jsval) : Js.M http_request :=
  text <- get body k_text ;;
  apiConfig <- get body k_apiConfig ;;
  if negb (truthy apiConfig) then Js.throw (Error msg_missing_key) else
  apiKey <- get apiConfig k_apiKey ;;
  if negb (truthy apiKey) then Js.throw (Error msg_missing_key) else
  configuredUrl <- get apiConfig k_apiUrl ;;
  let apiUrl := or_else configuredUrl (JStr default_url) in
  subject <- ToString text ;;
  let isChineseText := regex_test chinese_regex subject in
  let systemPrompt :=
    if isChineseText then prompt_to_english else prompt_to_chinese in
  configuredModel <- get apiConfig k_model ;;
  let chosenModel := or_else configuredModel (JStr default_model) in
  _ <- ToString chosenModel ;;
  key <- ToString apiKey ;;
  target <- ToString apiUrl ;;
  Js.ret {| url := target;
            method := utf16 "POST";
            content_type := utf16 "application/json";
            authorization := bearer +++ key;
            model := chosenModel;
            system_content := systemPrompt;
            user_content := text;
            temperature := 3 # 10;
            response_format := utf16 "json_object";
            max_tokens := 2048 |}.

(** The condition of the [if] of lines 68-74. *)
Definition has_content (data : jsval) : Js.M bool :=
  if negb (truthy data) then Js.ret false else
  choices <- get_path data [k_choices] ;;
  if negb (truthy choices) then Js.ret false else
  len <- get_path data [k_choices; key_length] ;;
  nonempty <- gt_zero h len ;;
  if negb nonempty then Js.ret false else
  message <- get_path data [k_choices; k_0; k_message] ;;
  if negb (truthy message) then Js.ret false else
  content <- get_path data [k_choices; k_0; k_message; k_content] ;;
  Js.ret (truthy content).

(** Lines 79-91: the inner [try] around [JSON.parse]. *)
Definition pick_translation (content : jsstring) : Js.M jsval :=
  Js.try_catch
    (jsonResponse <- parse_json content ;;
     if negb (truthy jsonResponse) then Js.ret (JStr content) else
     translation <- get jsonResponse k_translation ;;
     if truthy translation then Js.ret translation
     else Js.ret (JStr content))
    (fun jsonError => Js.ret (JStr content)).

(** Lines 66-94: the body of the outer [try]. *)
Definition main_path (data : jsval) : Js.M jsval :=
  present <- has_content data ;;
  if present then
    raw <- get_path data [k_choices; k_0; k_message; k_content] ;;
    content <- call_trim raw ;;
    pick_translation content
  else Js.throw (Error msg_bad_format).

(** Lines 95-103: the [catch] of the outer [try]. *)
Definition fallback (data : jsval) : Js.M jsval :=
  if negb (truthy data) then Js.ret (JStr msg_no_result) else
  choices <- get_path data [k_choices] ;;
  if negb (truthy choices) then Js.ret (JStr msg_no_result) else
  len <- get_path data [k_choices; key_length] ;;
  nonempty <- gt_zero h len ;;
  if negb nonempty then Js.ret (JStr msg_no_result) else
  message <- get_path data [k_choices; k_0; k_message] ;;
  content <- get_opt message k_content ;;
  Js.ret (or_else content (JStr msg_no_result)).

(** Lines 64-103 *)
Definition extract (data : jsval) : Js.M jsval :=
  Js.try_catch (main_path data) (fun e => fallback data).

(** Lines 55-103: what follows the awaited [fetch]. *)
Definition read_response (r : fetch_outcome) : Js.M jsval :=
  match r with
  | Rejected m => Js.throw (FetchError m)
  | Response ok statusText body =>
      if negb ok then
        errorData <- parse_json body ;;
        err <- get errorData k_error ;;
        provided <- get_opt err k_message ;;
        detail <- ToString (or_else provided (JStr statusText)) ;;
        Js.throw (Error (msg_api_error +++ detail))
      else
        data <- parse_json body ;;
        extract data
  end.

(** The body of the outer [try] of the handler, with the list of
    the requests it sent. *)
Definition translate (body : jsval) : list http_request * Js.M jsval :=
  match build_request body with
  | inl e => ([], inl e)
  | inr rq => ([rq], read_response (fetch rq))
  end.

(** Lines 105-116: the two [res.send]. *)
Definition send (r : Js.M jsval) : response :=
  match r with
  | inr translatedText =>
      {| success := true; result := Some translatedText; error := None |}
  | inl e =>
      {| success := false; result := None;
         error := Some (JStr (error_message h e)) |}
  end.

(** [handler(req, res)] for [req.body = body]: the requests sent
    and the object given to [res.send]. *)
Definition handler (body : jsval) : list http_request * response :=
  let (sent, r) := translate body in (sent, send r).

End Handler.

End Relay.

(* ================================================================== *)
(** ** A reference host

    The theorems below hold for every [Host].  The examples need one
    to run on: a JSON reader for the grammar of RFC 8259 whose numbers
    are restricted to integer literals (a fraction or an exponent is
    refused), a [Number(s) > 0] for signed decimal integers, and error
    texts in the style of V8. *)

Module RefHost.

Definition is_json_space (c : Z) : bool :=
  (c =? 32) || (c =? 9) || (c =? 10) || (c =? 13).

Fixpoint skip_space (s : jsstring) : jsstring :=
  match s with
  | c :: r => if is_json_space c then skip_space r else s
  | [] => []
  end.

Definition hex_value (c : Z) : option Z :=
  if (48 <=? c) && (c <=? 57) then Some (c - 48)
  else if (65 <=? c) && (c <=? 70) then Some (c - 55)
  else if (97 <=? c) && (c <=? 102) then Some (c - 87)
  else None.

Definition hex4 (a b c d : Z) : option Z :=
  match hex_value a, hex_value b, hex_value c, hex_value d with
  | Some x, Some y, Some z, Some w => Some (((x * 16 + y) * 16 + z) * 16 + w)
  | _, _, _, _ => None
  end.

(** The characters of a string literal, after its opening quote. *)
Fixpoint read_chars (s : jsstring) (acc : jsstring)
  : option (jsstring * jsstring) :=
  match s with
  | [] => None
  | 34 :: r => Some (rev acc, r)
  | 92 :: e :: r =>
      match e with
      | 34 | 92 | 47 => read_chars r (e :: acc)
      | 98 => read_chars r (8 :: acc)
      | 102 => read_chars r (12 :: acc)
      | 110 => read_chars r (10 :: acc)
      | 114 => read_chars r (13 :: acc)
      | 116 => read_chars r (9 :: acc)
      | 117 =>
          match r with
          | a :: b :: c :: d :: r' =>
              match hex4 a b c d with
              | Some u => read_chars r' (u :: acc)
              | None => None
              end
          | _ => None
          end
      | _ => None
      end
  | c :: r => if c <? 32 then None else read_chars r (c :: acc)
  end.

Fixpoint take_digits (s : jsstring) (acc : jsstring)
  : jsstring * jsstring :=
  match s with
  | c :: r =>
      if (48 <=? c) && (c <=? 57) then take_digits r (c :: acc)
      else (rev acc, s)
  | [] => (rev acc, [])
  end.

Definition starts_fraction (s : jsstring) : bool :=
  match s with
  | 46 :: _ | 101 :: _ | 69 :: _ => true
  | _ => false
  end.

(** An integer literal: [-]? ( 0 | [1-9][0-9]* ). *)
Definition read_integer (s : jsstring) : option (Z * jsstring) :=
  let (negative, s1) :=
    match s with
    | 45 :: r => (true, r)
    | _ => (false, s)
    end in
  let (ds, rest) := take_digits s1 [] in
  match ds with
  | [] => None
  | 48 :: _ :: _ => None
  | _ =>
      if starts_fraction rest then None
      else match digits_value 0 ds with
           | Some n => Some (if negative then - n else n, rest)
           | None => None
           end
  end.

Fixpoint strip_prefix (p s : jsstring) : option jsstring :=
  match p, s with
  | [], _ => Some s
  | a :: p', b :: s' => if a =? b then strip_prefix p' s' else None
  | _ :: _, [] => None
  end.

(** A later member replaces an earlier one of the same name. *)
Fixpoint set_prop (ps : list (jsstring * jsval)) (k : jsstring) (v : jsval)
  : list (jsstring * jsval) :=
  match ps with
  | [] => [(k, v)]
  | (k', v') :: r =>
      if eqb k' k then (k', v) :: r else (k', v') :: set_prop r k v
  end.

Fixpoint read_value (fuel : nat) (s : jsstring) {struct fuel}
  : option (jsval * jsstring) :=
  match fuel with
  | O => None
  | S f =>
      match skip_space s with
      | 123 :: r =>
          match skip_space r with
          | 125 :: r' => Some (JObj [], r')
          | _ => read_members f r []
          end
      | 91 :: r =>
          match skip_space r with
          | 93 :: r' => Some (JArr [], r')
          | _ => read_elements f r []
          end
      | 34 :: r =>
          match read_chars r [] with
          | Some (str, r') => Some (JStr str, r')
          | None => None
          end
      | 116 :: r =>
          option_map (fun r' => (JBool true, r'))
                     (strip_prefix [114; 117; 101] r)
      | 102 :: r =>
          option_map (fun r' => (JBool false, r'))
                     (strip_prefix [97; 108; 115; 101] r)
      | 110 :: r =>
          option_map (fun r' => (JNull, r'))
                     (strip_prefix [117; 108; 108] r)
      | s' =>
          match read_integer s' with
          | Some (n, r') => Some (JNum n, r')
          | None => None
          end
      end
  end
with read_members (fuel : nat) (s : jsstring)
                  (acc : list (jsstring * jsval)) {struct fuel}
  : option (jsval * jsstring) :=
  match fuel with
  | O => None
  | S f =>
      match skip_space s with
      | 34 :: r =>
          match read_chars r [] with
          | Some (k, r1) =>
              match skip_space r1 with
              | 58 :: r2 =>
                  match read_value f r2 with
                  | Some (v, r3) =>
                      match skip_space r3 with
                      | 44 :: r4 => read_members f r4 (set_prop acc k v)
                      | 125 :: r4 => Some (JObj (set_prop acc k v), r4)
                      | _ => None
                      end
                  | None => None
                  end
              | _ => None
              end
          | None => None
          end
      | _ => None
      end
  end
with read_elements (fuel : nat) (s : jsstring) (acc : list jsval)
                   {struct fuel}
  : option (jsval * jsstring) :=
  match fuel with
  | O => None
  | S f =>
      match read_value f s with
      | Some (v, r1) =>
          match skip_space r1 with
          | 44 :: r2 => read_elements f r2 (acc ++ [v])
          | 93 :: r2 => Some (JArr (acc ++ [v]), r2)
          | _ => None
          end
      | None => None
      end
  end.

Definition parse (s : jsstring) : option jsval :=
  match read_value (S (List.length s)) s with
  | Some (v, rest) =>
      match skip_space rest with
      | [] => Some v
      | _ => None
      end
  | None => None
  end.

(** [Number(s) > 0] for an optionally signed run of decimal digits. *)
Definition positive (s : jsstring) : bool :=
  match trim s with
  | 45 :: _ => false
  | 43 :: r | r =>
      match r with
      | [] => false
      | _ => match digits_value 0 r with
             | Some n => 0 <? n
             | None => false
             end
      end
  end.

Definition kind_of (v : jsval) : jsstring :=
  match v with
  | JNull => str_null
  | _ => str_undefined
  end.

Definition message_of (e : jserror) : jsstring :=
  match e with
  | Error m | FetchError m => m
  | TypeError_read base key =>
      utf16 "Cannot read properties of " +++ kind_of base
      +++ utf16 " (reading '" +++ key +++ utf16 "')"
  | TypeError_call key => key +++ utf16 " is not a function"
  | TypeError_convert =>
      utf16 "Cannot convert object to primitive value"
  | SyntaxError_json text => utf16 "Unexpected token in JSON"
  end.

Definition host : Host :=
  {| JSON_parse := parse;
     StringToNumber_positive := positive;
     engine_message := message_of |}.

End RefHost.

(** JSON text written with single quotes in place of double quotes. *)
Definition json (s : string) : jsstring :=
  map (fun c => if c =? 39 then 34 else c) (utf16 s).

Module RelayExamples.
Import Relay.

Definition request (text key : string) : jsval :=
  JObj [(k_text, JStr (utf16 text));
        (k_apiConfig, JObj [(k_apiKey, JStr (utf16 key))])].

Definition answers (ok : bool) (statusText : string) (body : jsstring)
  : http_request -> fetch_outcome :=
  fun _ => Response ok (utf16 statusText) body.

Definition run (net : http_request -> fetch_outcome) (body : jsval)
  : response :=
  snd (handler RefHost.host net body).

(** Bodies and the request used by the examples. *)
Definition hello_body : jsstring :=
  json "{'choices':[{'message':{'content':' {\'translation\':\'hello\'}\n'}}]}".

Definition newline_body : jsstring :=
  json "{'choices':[{'message':{'content':'hello world\n'}}]}".

Definition sent_request : http_request :=
  {| url := default_url;
     method := utf16 "POST";
     content_type := utf16 "application/json";
     authorization := utf16 "Bearer sk-1";
     model := JStr default_model;
     system_content := prompt_to_english;
     user_content := JStr (utf16 "你好");
     temperature := 3 # 10;
     response_format := utf16 "json_object";
     max_tokens := 2048 |}.

Definition gateway_page : jsstring :=
  utf16 "<html><body>502 Bad Gateway</body></html>".

Definition null_choice_body : jsstring := json "{'choices':[null]}".

End RelayExamples.

(* ================================================================== *)
(** ** The selection/popup component: [src/contents/translate.jsx] *)

Module UI.

(** The regular expression literal of line 36. *)
Definition chinese_regex : regex := CharRange 0x4e00 0x9fa5.

(** Line 36 *)
Definition isChineseText (text : jsstring) : bool :=
  regex_test chinese_regex text.

Definition label_to_english : jsstring := Eval vm_compute in
  utf16 "翻译为英文".
Definition label_to_chinese : jsstring := Eval vm_compute in
  utf16 "翻译为中文".
Definition detected_chinese : jsstring := Eval vm_compute in utf16 "中文".
Definition detected_other : jsstring := Eval vm_compute in utf16 "非中文".
Definition arrow_english : jsstring := Eval vm_compute in utf16 "(→英文)".
Definition arrow_chinese : jsstring := Eval vm_compute in utf16 "(→中文)".
Definition msg_failed : jsstring := Eval vm_compute in utf16 "翻译失败: ".
Definition msg_no_translation : jsstring := Eval vm_compute in
  utf16 "未能获取到翻译结果".
Definition msg_placeholder : jsstring := Eval vm_compute in
  utf16 "未获取到翻译结果".
Definition k_enabled : jsstring := Eval vm_compute in utf16 "enabled".

(** Pixel coordinates. *)
Record point : Type := { x : Z; y : Z }.

(** The component instance: the eleven [useState] cells of lines
    400-410, the [useRef] flag of line 415, the value that
    [useStorage] delivers (line 418), what the effect of lines
    512-531 has installed together with the dependency values of its
    last run, and the callbacks that are scheduled but have not run:
    the [sendToBackground] calls awaited by [translateText] (their
    bodies), the [setTimeout] of line 505, the
    [requestAnimationFrame] of line 499, the clipboard promise of
    line 603 and the [setTimeout] of line 606. *)
Record state : Type := {
  isButtonVisible : bool;
  isResultVisible : bool;
  selectedText : jsstring;
  position : point;
  translatedText : jsval;
  isLoading : bool;
  error : option jsstring;
  isTranslating : bool;
  copied : bool;
  expandSource : bool;
  expandTranslation : bool;
  isOutsideClickProcessing : bool;
  apiConfig : jsval;
  listening : bool;
  deps : option (bool * bool * bool);
  requests : list jsval;
  release_timers : nat;
  frames : nat;
  clipboard_writes : nat;
  copy_timers : nat
}.

(** The arguments of the [useState] and [useRef] calls; nothing is
    stored, installed or scheduled yet. *)
Definition initial : state :=
  {| isButtonVisible := false;
     isResultVisible := false;
     selectedText := [];
     position := {| x := 0; y := 0 |};
     translatedText := JStr [];
     isLoading := false;
     error := None;
     isTranslating := false;
     copied := false;
     expandSource := false;
     expandTranslation := false;
     isOutsideClickProcessing := false;
     apiConfig := JUndefined;
     listening := false;
     deps := None;
     requests := [];
     release_timers := 0%nat;
     frames := 0%nat;
     clipboard_writes := 0%nat;
     copy_timers := 0%nat |}.

Definition set_isButtonVisible (v : bool) (s : state) : state :=
  let '(Build_state bv rv st po tx lo er tr co es et fl cf li de rq rt
          fr cw ct) := s in
  Build_state v rv st po tx lo er tr co es et fl cf li de rq rt fr cw
    ct.

Definition set_isResultVisible (v : bool) (s : state) : state :=
  let '(Build_state bv rv st po tx lo er tr co es et fl cf li de rq rt
          fr cw ct) := s in
  Build_state bv v st po tx lo er tr co es et fl cf li de rq rt fr cw
    ct.

Definition set_selectedText (v : jsstring) (s : state) : state :=
  let '(Build_state bv rv st po tx lo er tr co es et fl cf li de rq rt
          fr cw ct) := s in
  Build_state bv rv v po tx lo er tr co es et fl cf li de rq rt fr cw
    ct.

Definition set_position (v : point) (s : state) : state :=
  let '(Build_state bv rv st po tx lo er tr co es et fl cf li de rq rt
          fr cw ct) := s in
  Build_state bv rv st v tx lo er tr co es et fl cf li de rq rt fr cw
    ct.

Definition set_translatedText (v : jsval) (s : state) : state :=
  let '(Build_state bv rv st po tx lo er tr co es et fl cf li de rq rt
          fr cw ct) := s in
  Build_state bv rv st po v lo er tr co es et fl cf li de rq rt fr cw
    ct.

Definition set_isLoading (v : bool) (s : state) : state :=
  let '(Build_state bv rv st po tx lo er tr co es et fl cf li de rq rt
          fr cw ct) := s in
  Build_state bv rv st po tx v er tr co es et fl cf li de rq rt fr cw
    ct.

Definition set_error (v : option jsstring) (s : state) : state :=
  let '(Build_state bv rv st po tx lo er tr co es et fl cf li de rq rt
          fr cw ct) := s in
  Build_state bv rv st po tx lo v tr co es et fl cf li de rq rt fr cw
    ct.

Definition set_isTranslating (v : bool) (s : state) : state :=
  let '(Build_state bv rv st po tx lo er tr co es et fl cf li de rq rt
          fr cw ct) := s in
  Build_state bv rv st po tx lo er v co es et fl cf li de rq rt fr cw
    ct.

Definition set_copied (v : bool) (s : state) : state :=
  let '(Build_state bv rv st po tx lo er tr co es et fl cf li de rq rt
          fr cw ct) := s in
  Build_state bv rv st po tx lo er tr v es et fl cf li de rq rt fr cw
    ct.

Definition set_expandSource (v : bool) (s : state) : state :=
  let '(Build_state bv rv st po tx lo er tr co es et fl cf li de rq rt
          fr cw ct) := s in
  Build_state bv rv st po tx lo er tr co v et fl cf li de rq rt fr cw
    ct.

Definition set_expandTranslation (v : bool) (s : state) : state :=
  let '(Build_state bv rv st po tx lo er tr co es et fl cf li de rq rt
          fr cw ct) := s in
  Build_state bv rv st po tx lo er tr co es v fl cf li de rq rt fr cw
    ct.

Definition set_isOutsideClickProcessing (v : bool) (s : state) : state :=
  let '(Build_state bv rv st po tx lo er tr co es et fl cf li de rq rt
          fr cw ct) := s in
  Build_state bv rv st po tx lo er tr co es et v cf li de rq rt fr cw
    ct.

Definition set_apiConfig (v : jsval) (s : state) : state :=
  let '(Build_state bv rv st po tx lo er tr co es et fl cf li de rq rt
          fr cw ct) := s in
  Build_state bv rv st po tx lo er tr co es et fl v li de rq rt fr cw
    ct.

Definition set_listening (v : bool) (s : state) : state :=
  let '(Build_state bv rv st po tx lo er tr co es et fl cf li de rq rt
          fr cw ct) := s in
  Build_state bv rv st po tx lo er tr co es et fl cf v de rq rt fr cw
    ct.

Definition set_deps (v : option (bool * bool * bool)) (s : state) : state :=
  let '(Build_state bv rv st po tx lo er tr co es et fl cf li de rq rt
          fr cw ct) := s in
  Build_state bv rv st po tx lo er tr co es et fl cf li v rq rt fr cw
    ct.

Definition set_requests (v : list jsval) (s : state) : state :=
  let '(Build_state bv rv st po tx lo er tr co es et fl cf li de rq rt
          fr cw ct) := s in
  Build_state bv rv st po tx lo er tr co es et fl cf li de v rt fr cw
    ct.

Definition set_release_timers (v : nat) (s : state) : state :=
  let '(Build_state bv rv st po tx lo er tr co es et fl cf li de rq rt
          fr cw ct) := s in
  Build_state bv rv st po tx lo er tr co es et fl cf li de rq v fr cw
    ct.

Definition set_frames (v : nat) (s : state) : state :=
  let '(Build_state bv rv st po tx lo er tr co es et fl cf li de rq rt
          fr cw ct) := s in
  Build_state bv rv st po tx lo er tr co es et fl cf li de rq rt v cw
    ct.

Definition set_clipboard_writes (v : nat) (s : state) : state :=
  let '(Build_state bv rv st po tx lo er tr co es et fl cf li de rq rt
          fr cw ct) := s in
  Build_state bv rv st po tx lo er tr co es et fl cf li de rq rt fr v
    ct.

Definition set_copy_timers (v : nat) (s : state) : state :=
  let '(Build_state bv rv st po tx lo er tr co es et fl cf li de rq rt
          fr cw ct) := s in
  Build_state bv rv st po tx lo er tr co es et fl cf li de rq rt fr cw
    v.

(** Line 421: [apiConfig?.enabled !== false] *)
Definition enabled_in (data : jsval) : bool :=
  match get_opt data k_enabled with
  | inr (JBool false) => false
  | _ => true
  end.

Definition isTranslateEnabled (s : state) : bool :=
  enabled_in (apiConfig s).

(** *** Rendering (lines 534 and 633-698, and [ResultPopup]) *)

Inductive popup_body : Type :=
| Loading
| Failed (message : jsstring)
| Translated (shown : jsval) (copy_button : bool) (copied_mark : bool).

Record popup_view : Type := {
  detected : jsstring;
  arrow : jsstring;
  body : popup_body
}.

Record view : Type := {
  button : option jsstring;
  popup : option popup_view
}.

(** Line 638 *)
Definition buttonText (s : state) : jsstring :=
  if isChineseText (selectedText s) then label_to_english
  else label_to_chinese.

(** Lines 126-219 *)
Definition ResultPopup (s : state) : popup_view :=
  let isChinese := isChineseText (selectedText s) in
  {| detected := if isChinese then detected_chinese else detected_other;
     arrow := if isChinese then arrow_english else arrow_chinese;
     body :=
       if isLoading s then Loading
       else match error s with
            | Some (c :: m) => Failed (c :: m)
            | _ =>
                Translated
                  (or_else (translatedText s) (JStr msg_placeholder))
                  (truthy (translatedText s)) (copied s)
            end |}.

(** What the component returns; [None] is [return null]. *)
Definition render (s : state) : option view :=
  if negb (isTranslateEnabled s) then None
  else if negb (isButtonVisible s) && negb (isResultVisible s) then None
  else Some {| button := if isButtonVisible s then Some (buttonText s)
                         else None;
               popup := if isResultVisible s then Some (ResultPopup s)
                        else None |}.

(** Whether [buttonRef.current] and [popupRef.current] hold an
    element, and whether the copy control is on the page. *)
Definition button_mounted (s : state) : bool :=
  match render s with
  | Some {| button := Some _ |} => true
  | _ => false
  end.

Definition popup_mounted (s : state) : bool :=
  match render s with
  | Some {| popup := Some _ |} => true
  | _ => false
  end.

Definition copy_mounted (s : state) : bool :=
  match render s with
  | Some {| popup := Some {| body := Translated _ true _ |} |} => true
  | _ => false
  end.

Definition result_mounted (s : state) : bool :=
  match render s with
  | Some {| popup := Some {| body := Translated _ _ _ |} |} => true
  | _ => false
  end.

(** *** Events *)

(** Which of the component's elements the composed path of a mouse
    event contains. *)
Inductive target : Type :=
| OnButton
| OnPopup
| Elsewhere.

(** What happens to the component.  A mouse event carries what
    [window.getSelection().toString()] gives at that moment, and a
    mouseup also the left and bottom edge of the selection's
    rectangle.  [RelaySettles i r] is the end of the [i]-th pending
    [sendToBackground]: [inr] the object the relay sent, [inl] a
    rejection. *)
Inductive event : Type :=
| Mouseup (t : target) (selection : jsstring) (rect_left rect_bottom : Z)
| Mousedown (t : target) (selection : jsstring)
| ClickTranslate
| ClickClose
| ClickCopy
| ClipboardSettles (written : bool)
| CopyTimerFires
| ToggleSource (expanded : bool)
| ToggleTranslation (expanded : bool)
| Drag (p : point)
| StorageChanged (data : jsval)
| ReleaseTimerFires
| FrameFires
| RelaySettles (i : nat) (r : Js.M Relay.response).

Definition is_button (t : target) : bool :=
  match t with
  | OnButton => true
  | _ => false
  end.

Definition is_popup (t : target) : bool :=
  match t with
  | OnPopup => true
  | _ => false
  end.

Definition is_empty (s : jsstring) : bool :=
  match s with
  | [] => true
  | _ => false
  end.

(** *** The handlers *)

(** Lines 427-468.  The two document listeners read
    [isTranslateEnabled], [isTranslating] and [isResultVisible];
    these are the dependencies of the effect that installs them, so
    the installed closure sees their current values. *)
Definition handleSelection (t : target) (selection : jsstring)
           (rect_left rect_bottom : Z) (s : state) : state :=
  if negb (isTranslateEnabled s) then s
  else if isTranslating s then s
  else if (button_mounted s && is_button t)
          || (popup_mounted s && is_popup t) then s
  else
    let text := trim selection in
    if negb (is_empty text) then
      set_isButtonVisible true
        (set_selectedText text
           (set_position {| x := rect_left; y := rect_bottom + 5 |} s))
    else set_isButtonVisible false s.

(** Lines 474-509.  The [finally] block runs on both ways out of
    the [try]. *)
Definition handleClickOutside (t : target) (selection : jsstring)
           (s : state) : state :=
  if negb (isTranslateEnabled s) then s
  else if isOutsideClickProcessing s then s
  else
    let s1 := set_isOutsideClickProcessing true s in
    let clickedOnButton := button_mounted s1 && is_button t in
    let s2 :=
      if clickedOnButton then s1
      else
        let text := trim selection in
        if is_empty text && negb (isTranslating s1)
           && negb (isResultVisible s1)
        then set_frames (S (frames s1)) s1
        else s1 in
    set_release_timers (S (release_timers s2)) s2.

(** Lines 548-561: [translateText] up to its [await]. *)
Definition translateText (text : jsstring) (s : state) : state :=
  let s1 := set_copied false (set_error None (set_isLoading true s)) in
  set_requests
    (requests s1 ++ [JObj [(Relay.k_text, JStr text);
                           (Relay.k_apiConfig, apiConfig s1)]])
    s1.

(** Lines 563-576: [translateText] after its [await]. *)
Definition translateText_resume (h : Host) (r : Js.M Relay.response)
           (s : state) : state :=
  let attempt : Js.M jsval :=
    resp <- r ;;
    let e := or_undefined (Relay.error resp) in
    if truthy e then (m <- ToString e ;; Js.throw (Error m))
    else
      let res := or_undefined (Relay.result resp) in
      if truthy res then Js.ret res
      else Js.throw (Error msg_no_translation) in
  let s1 :=
    match attempt with
    | inr res => set_translatedText res s
    | inl err => set_error (Some (msg_failed +++ error_message h err)) s
    end in
  set_isLoading false s1.

(** Lines 583-596 *)
Definition handleTranslate (s : state) : state :=
  translateText (selectedText s)
    (set_isResultVisible true
       (set_isButtonVisible false
          (set_isTranslating true s))).

(** Lines 601-613 *)
Definition copyTranslatedText (s : state) : state :=
  if truthy (translatedText s)
  then set_clipboard_writes (S (clipboard_writes s)) s
  else s.

(** Lines 619-631 *)
Definition closeResult (s : state) : state :=
  set_expandTranslation false
    (set_expandSource false
       (set_copied false
          (set_isTranslating false
             (set_error None
                (set_translatedText (JStr [])
                   (set_isResultVisible false s)))))).

Fixpoint remove_nth {A} (i : nat) (l : list A) : list A :=
  match i, l with
  | _, [] => []
  | O, _ :: r => r
  | S j, a :: r => a :: remove_nth j r
  end.

(** One event reaching the code that handles it.  A document
    listener runs only while installed, a control only while it is
    on the page, a scheduled callback only while pending. *)
Definition dispatch (h : Host) (e : event) (s : state) : state :=
  match e with
  | Mouseup t selection rect_left rect_bottom =>
      if listening s
      then handleSelection t selection rect_left rect_bottom s
      else s
  | Mousedown t selection =>
      if listening s then handleClickOutside t selection s else s
  | ClickTranslate =>
      if button_mounted s then handleTranslate s else s
  | ClickClose =>
      if popup_mounted s then closeResult s else s
  | ClickCopy =>
      if copy_mounted s then copyTranslatedText s else s
  | ClipboardSettles written =>
      match clipboard_writes s with
      | O => s
      | S n =>
          let s1 := set_clipboard_writes n s in
          if written
          then set_copy_timers (S (copy_timers s1)) (set_copied true s1)
          else s1
      end
  | CopyTimerFires =>
      match copy_timers s with
      | O => s
      | S n => set_copied false (set_copy_timers n s)
      end
  | ToggleSource expanded =>
      if popup_mounted s then set_expandSource expanded s else s
  | ToggleTranslation expanded =>
      if result_mounted s then set_expandTranslation expanded s else s
  | Drag p =>
      if popup_mounted s then set_position p s else s
  | StorageChanged data => set_apiConfig data s
  | ReleaseTimerFires =>
      match release_timers s with
      | O => s
      | S n => set_isOutsideClickProcessing false (set_release_timers n s)
      end
  | FrameFires =>
      match frames s with
      | O => s
      | S n => set_isButtonVisible false (set_frames n s)
      end
  | RelaySettles i r =>
      match nth_error (requests s) i with
      | Some _ =>
          translateText_resume h r
            (set_requests (remove_nth i (requests s)) s)
      | None => s
      end
  end.

(** *** The effect of lines 512-531 *)

Definition dependencies (s : state) : bool * bool * bool :=
  (isTranslating s, isResultVisible s, isTranslateEnabled s).

Definition same_dependencies (a : option (bool * bool * bool))
           (b : bool * bool * bool) : bool :=
  match a, b with
  | Some (a1, a2, a3), (b1, b2, b3) =>
      Bool.eqb a1 b1 && Bool.eqb a2 b2 && Bool.eqb a3 b3
  | None, _ => false
  end.

(** The clean-up of the previous run removes the two listeners it
    had added; the body adds them again, or clears three cells. *)
Definition effect (s : state) : state :=
  let s1 := set_listening false s in
  if isTranslateEnabled s1 then set_listening true s1
  else set_isTranslating false
         (set_isResultVisible false
            (set_isButtonVisible false s1)).

(** One render followed by its effect, which runs on mount and when
    a dependency has changed. *)
Definition commit_once (s : state) : state :=
  if same_dependencies (deps s) (dependencies s) then s
  else effect (set_deps (Some (dependencies s)) s).

(** The effect may set cells that are its own dependencies; the
    second pass is the render that this causes. *)
Definition commit (s : state) : state := commit_once (commit_once s).

Definition mounted : state := commit initial.

Definition step (h : Host) (s : state) (e : event) : state :=
  commit (dispatch h e s).

Definition run (h : Host) (s : state) (es : list event) : state :=
  fold_left (step h) es s.

(** *** The states of section 4.3 of the specification *)

Inductive phase : Type :=
| Idle
| ButtonVisible
| Translating
| ResultVisible.

Definition phase_of (s : state) : phase :=
  if isResultVisible s then
    (if isLoading s then Translating else ResultVisible)
  else if isButtonVisible s then ButtonVisible
  else Idle.

End UI.

(* ================================================================== *)
(** ** The draggable container: [DraggableBox], lines 274-382 *)

Module DraggableBox.

(** What one press in the title bar adds to [window]: the pair of
    listeners of lines 339-340, whose closures hold the offsets of
    lines 300-301.  Two pairs with equal offsets behave alike. *)
Record grip : Type := { offsetX : Z; offsetY : Z }.

Definition same_grip (a b : grip) : bool :=
  (offsetX a =? offsetX b) && (offsetY a =? offsetY b).

(** The instance: the two [useState] cells, the [dragStarted] ref,
    the listener pairs on [window] in the order they were added, and
    the positions given to [onPositionChange] so far, oldest first. *)
Record box : Type := {
  isDragging : bool;
  position : UI.point;
  dragStarted : bool;
  grips : list grip;
  reported : list UI.point
}.

Definition mount (initialPosition : UI.point) : box :=
  {| isDragging := false;
     position := initialPosition;
     dragStarted := false;
     grips := [];
     reported := [] |}.

(** What reaches the box.  [Press] is a mousedown that arrives at
    the box's [onMouseDown] (one inside the popup does not: line 146
    stops it), with the pointer's client coordinates and the left and
    top edge of the box's bounding rectangle; [Move] and [Release]
    are a mousemove and a mouseup arriving at [window]; [Placed] is a
    render with another [initialPosition]. *)
Inductive pointer_event : Type :=
| Press (clientX clientY rect_left rect_top : Z)
| Move (clientX clientY : Z)
| Release
| Placed (initialPosition : UI.point).

Section Box.

(** Whether the owner passed [onPositionChange]. *)
Variable onPositionChange : bool.

(** Lines 289-342 *)
Definition handleMouseDown (clientX clientY rect_left rect_top : Z)
           (b : box) : box :=
  let clickY := clientY - rect_top in
  if clickY <? 30 then
    {| isDragging := true;
       position := position b;
       dragStarted := true;
       grips := grips b ++ [{| offsetX := clientX - rect_left;
                               offsetY := clientY - rect_top |}];
       reported := reported b |}
  else b.

(** Lines 310-323, for the pair [g]. *)
Definition handleGlobalMouseMove (clientX clientY : Z) (b : box) (g : grip)
  : box :=
  if negb (dragStarted b) then b
  else
    let p := {| UI.x := clientX - offsetX g; UI.y := clientY - offsetY g |} in
    {| isDragging := isDragging b;
       position := p;
       dragStarted := dragStarted b;
       grips := grips b;
       reported := if onPositionChange then reported b ++ [p]
                   else reported b |}.

Fixpoint remove_first (g : grip) (l : list grip) : list grip :=
  match l with
  | [] => []
  | a :: r => if same_grip a g then r else a :: remove_first g r
  end.

(** Lines 329-336, for the pair [g]: it takes itself off [window]. *)
Definition handleGlobalMouseUp (b : box) (g : grip) : box :=
  {| isDragging := false;
     position := position b;
     dragStarted := false;
     grips := remove_first g (grips b);
     reported := reported b |}.

(** An event at [window] runs the listeners that are installed when
    it arrives, in the order they were added. *)
Definition handle (e : pointer_event) (b : box) : box :=
  match e with
  | Press clientX clientY rect_left rect_top =>
      handleMouseDown clientX clientY rect_left rect_top b
  | Move clientX clientY =>
      fold_left (handleGlobalMouseMove clientX clientY) (grips b) b
  | Release => fold_left handleGlobalMouseUp (grips b) b
  | Placed initialPosition =>
      {| isDragging := isDragging b;
         position := initialPosition;
         dragStarted := dragStarted b;
         grips := grips b;
         reported := reported b |}
  end.

Definition run (b : box) (es : list pointer_event) : box :=
  fold_left (fun b e => handle e b) es b.

End Box.

(** No drag is going on and none is prepared. *)
Definition at_rest (b : box) : Prop :=
  grips b = [] /\ dragStarted b = false /\ isDragging b = false.

(** A press that lands in the 30 pixels at the top of the box. *)
Definition in_handle (e : pointer_event) : bool :=
  match e with
  | Press _ clientY _ rect_top => clientY - rect_top <? 30
  | _ => false
  end.

(** The position the owner last asked for. *)
Fixpoint last_placed (es : list pointer_event) (p : UI.point) : UI.point :=
  match es with
  | [] => p
  | Placed q :: r => last_placed r q
  | _ :: r => last_placed r p
  end.

Definition moves (ps : list (Z * Z)) : list pointer_event :=
  map (fun p => Move (fst p) (snd p)) ps.

(** Where the box is when the pointer is at [p], for a drag that
    began with the pointer at [(clientX, clientY)] on a box whose
    rectangle began at [(rect_left, rect_top)]. *)
Definition dragged_to (clientX clientY rect_left rect_top : Z) (p : Z * Z)
  : UI.point :=
  {| UI.x := rect_left + (fst p - clientX);
     UI.y := rect_top + (snd p - clientY) |}.

End DraggableBox.

(* ================================================================== *)
(** ** The collapsible text: [CollapsibleText], lines 48-106 *)

Module CollapsibleText.

(** The two [useState] cells of lines 50-51. *)
Record text_state : Type := {
  needsCollapse : bool;
  isExpanded : bool
}.

Definition mount (expanded : bool) : text_state :=
  {| needsCollapse := false; isExpanded := expanded |}.

(** [lineHeight || 20], where [lineHeight] is what [parseInt] made
    of the computed line height: an integer, or [NaN] ([None]). *)
Definition line_height (parsed : option Z) : Z :=
  match parsed with
  | Some n => if n =? 0 then 20 else n
  | None => 20
  end.

(** [Math.ceil(height / (lineHeight || 20))] for the integer
    [scrollHeight].  On integers below 2^53 the quotient, rounded to
    a double, has the ceiling of the exact quotient. *)
Definition lines (parsed : option Z) (height : Z) : Z :=
  - ((- height) / line_height parsed).

(** Lines 54-61, with the element attached. *)
Definition measure (maxRows : Z) (parsed : option Z) (height : Z)
           (s : text_state) : text_state :=
  {| needsCollapse := maxRows <? lines parsed height;
     isExpanded := isExpanded s |}.

(** Lines 64-66 *)
Definition follow (expanded : bool) (s : text_state) : text_state :=
  {| needsCollapse := needsCollapse s; isExpanded := expanded |}.

(** Lines 69-74: the new state and the value given to [onToggle]. *)
Definition handleToggle (s : text_state) : text_state * bool :=
  ({| needsCollapse := needsCollapse s; isExpanded := negb (isExpanded s) |},
   negb (isExpanded s)).

Definition label_collapse : jsstring := Eval vm_compute in utf16 "收起".
Definition label_expand : jsstring := Eval vm_compute in utf16 "展开".

(** Lines 76-105: whether the text is clipped to [maxRows] lines, and
    the label of the control below it when there is one. *)
Record text_view : Type := {
  clipped : bool;
  control : option jsstring
}.

Definition view (s : text_state) : text_view :=
  {| clipped := needsCollapse s && negb (isExpanded s);
     control := if needsCollapse s
                then Some (if isExpanded s then label_collapse
                           else label_expand)
                else None |}.

End CollapsibleText.

(* ================================================================== *)
(** ** The settings form: [Setting] *)

Module Setting.

(** The values of the four [Form.Item]s, in their order. *)
Record form : Type := {
  enabled : jsval;
  apiUrl : jsval;
  apiKey : jsval;
  model : jsval
}.

(** The [initialValue] props; the key has none. *)
Definition initial_form : form :=
  {| enabled := JBool true;
     apiUrl := JStr (utf16 "https://api.deepseek.com/v1/chat/completions");
     apiKey := JUndefined;
     model := JStr (utf16 "deepseek-chat") |}.

(** The user types a key. *)
Definition with_key (key : jsstring) (f : form) : form :=
  {| enabled := enabled f; apiUrl := apiUrl f; apiKey := JStr key;
     model := model f |}.

(** [form.getFieldsValue()] *)
Definition getFieldsValue (f : form) : jsval :=
  JObj [(UI.k_enabled, enabled f);
        (Relay.k_apiUrl, apiUrl f);
        (Relay.k_apiKey, apiKey f);
        (Relay.k_model, model f)].

(** [onSubmit]: the value that [setData] stores under ["data"],
    which is the [apiConfig] of the content script. *)
Definition onSubmit (f : form) : jsval := getFieldsValue f.

End Setting.

(* ================================================================== *)
(** ** The words of the specification *)

Module RelaySpec.
Import Relay.

(** A value that counts as an empty or absent setting. *)
Definition missing (v : jsval) : bool :=
  match v with
  | JUndefined | JNull | JStr [] => true
  | _ => false
  end.

(** "[apiConfig.apiKey] is empty or absent": the request carries no
    [apiConfig], or one whose [apiKey] is missing. *)
Definition apiKey_missing (body : jsval) : bool :=
  match body with
  | JObj ps =>
      match or_undefined (lookup ps k_apiConfig) with
      | JObj cfg => missing (or_undefined (lookup cfg k_apiKey))
      | other => missing other
      end
  | _ => false
  end.

(** "The first choice's message content string": the string at
    [choices[0].message.content] of a response body of the expected
    shape. *)
Definition first_choice_content (data : jsval) : option jsstring :=
  match data with
  | JObj ps =>
      match lookup ps k_choices with
      | Some (JArr (JObj choice :: _)) =>
          match lookup choice k_message with
          | Some (JObj message) =>
              match lookup message k_content with
              | Some (JStr c) => Some c
              | _ => None
              end
          | _ => None
          end
      | _ => None
      end
  | _ => None
  end.

(** "The parsed object contains a [translation] field". *)
Definition translation_field (parsed : jsval) : option jsval :=
  match parsed with
  | JObj ps => lookup ps k_translation
  | _ => None
  end.

Definition is_string (v : jsval) : bool :=
  match v with
  | JStr _ => true
  | _ => false
  end.

(** "A CJK ideograph": a code unit in the range of the regular
    expression, U+4E00 to U+9FA5. *)
Definition is_ideograph (c : Z) : Prop := 0x4e00 <= c <= 0x9fa5.

(** "Text containing at least one CJK ideograph". *)
Definition has_ideograph (t : jsstring) : Prop :=
  exists c, In c t /\ is_ideograph c.

Definition succeeded (r : response) (v : jsval) : Prop :=
  r = {| success := true; result := Some v; error := None |}.

Definition failed (r : response) (m : jsstring) : Prop :=
  r = {| success := false; result := None; error := Some (JStr m) |}.

(** A setting as the settings form writes it: a string, or left out. *)
Definition string_or_absent (o : option jsval) : Prop :=
  match o with
  | None | Some JUndefined | Some JNull | Some (JStr _) => True
  | _ => False
  end.

(** The configured string when there is a non-empty one. *)
Definition configured (o : option jsval) (default : jsstring) : jsstring :=
  match o with
  | Some (JStr (c :: s)) => c :: s
  | _ => default
  end.

(** The call of section 6 of the specification for the text [t], the
    key [key] and the other settings [cfg]. *)
Definition provider_request (t key : jsstring)
           (cfg : list (jsstring * jsval)) : http_request :=
  {| url := configured (lookup cfg k_apiUrl) default_url;
     method := utf16 "POST";
     content_type := utf16 "application/json";
     authorization := utf16 "Bearer " +++ key;
     model := JStr (configured (lookup cfg k_model) default_model);
     system_content :=
       if regex_test chinese_regex t then prompt_to_english
       else prompt_to_chinese;
     user_content := JStr t;
     temperature := 3 # 10;
     response_format := utf16 "json_object";
     max_tokens := 2048 |}.

(** A response body of the expected shape up to the content:
    [{choices: [{message: {content: v}}, ...]}]. *)
Definition first_choice_value (data : jsval) : option jsval :=
  match data with
  | JObj ps =>
      match lookup ps k_choices with
      | Some (JArr (JObj choice :: _)) =>
          match lookup choice k_message with
          | Some (JObj message) => lookup message k_content
          | _ => None
          end
      | _ => None
      end
  | _ => None
  end.

(** A 2xx body with no content to show: no [choices], an empty
    [choices], or a first choice whose [message] is missing or
    [null], or whose [content] is missing, [null] or empty. *)
Definition without_content (data : jsval) : Prop :=
  match data with
  | JObj ps =>
      match lookup ps k_choices with
      | None | Some JUndefined | Some JNull | Some (JArr []) => True
      | Some (JArr (JObj choice :: _)) =>
          match lookup choice k_message with
          | None | Some JUndefined | Some JNull => True
          | Some (JObj message) =>
              match lookup message k_content with
              | None | Some JUndefined | Some JNull | Some (JStr []) => True
              | _ => False
              end
          | _ => False
          end
      | _ => False
      end
  | _ => False
  end.

(** The value of a successful answer: a string, or a truthy value. *)
Definition presentable (v : jsval) : Prop :=
  is_string v = true \/ truthy v = true.

End RelaySpec.

Module UISpec.
Import UI.

(** The instances the component can be in: the mounted one and
    what events make of it. *)
Inductive reachable (h : Host) : state -> Prop :=
| reachable_mounted : reachable h mounted
| reachable_step (s : state) (e : event) :
    reachable h s -> reachable h (step h s e).

(** What every such instance satisfies: the effect has run for the
    current dependency values, the listeners are installed exactly
    while the feature is enabled, a disabled component shows nothing
    and is not translating, and the processing flag is set exactly
    while its release is scheduled. *)
Definition consistent (s : state) : Prop :=
  deps s = Some (dependencies s)
  /\ listening s = isTranslateEnabled s
  /\ (isTranslateEnabled s = false ->
      isButtonVisible s = false /\ isResultVisible s = false
      /\ isTranslating s = false)
  /\ release_timers s = (if isOutsideClickProcessing s then 1 else 0)%nat.

(** "[Settings.enabled === false]" *)
Definition disables (data : jsval) : Prop :=
  get_opt data k_enabled = inr (JBool false).

Definition is_mousedown (e : event) : bool :=
  match e with
  | Mousedown _ _ => true
  | _ => false
  end.

Definition is_storage_change (e : event) : bool :=
  match e with
  | StorageChanged _ => true
  | _ => false
  end.

(** The eleven [useState] cells of two instances agree. *)
Definition same_cells (a b : state) : Prop :=
  isButtonVisible a = isButtonVisible b
  /\ isResultVisible a = isResultVisible b
  /\ selectedText a = selectedText b
  /\ position a = position b
  /\ translatedText a = translatedText b
  /\ isLoading a = isLoading b
  /\ error a = error b
  /\ isTranslating a = isTranslating b
  /\ copied a = copied b
  /\ expandSource a = expandSource b
  /\ expandTranslation a = expandTranslation b.

(** Nothing is rendered, the two document listeners are removed, and
    the three cells of lines 527-529 are cleared. *)
Definition detached (s : state) : Prop :=
  render s = None /\ listening s = false
  /\ isButtonVisible s = false /\ isResultVisible s = false
  /\ isTranslating s = false.

Definition keeps_settings (e : event) : bool := negb (is_storage_change e).

(** The popup is open exactly while [isTranslating] is set, and the
    button is not shown with it. *)
Definition one_surface (s : state) : Prop :=
  isResultVisible s = isTranslating s
  /\ (isButtonVisible s = true -> isResultVisible s = false).

(** The transitions of section 4.3 of the specification: staying in
    a state, and the arrows between states with the events that may
    take them. *)
Definition allowed (p : phase) (e : event) (q : phase) : bool :=
  match p, q with
  | Idle, Idle | ButtonVisible, ButtonVisible
  | Translating, Translating | ResultVisible, ResultVisible => true
  | Idle, ButtonVisible =>
      match e with
      | Mouseup _ _ _ _ => true
      | _ => false
      end
  | ButtonVisible, Idle =>
      match e with
      | Mouseup _ _ _ _ | FrameFires | StorageChanged _ => true
      | _ => false
      end
  | ButtonVisible, Translating =>
      match e with
      | ClickTranslate => true
      | _ => false
      end
  | Translating, ResultVisible =>
      match e with
      | RelaySettles _ _ => true
      | _ => false
      end
  | Translating, Idle | ResultVisible, Idle =>
      match e with
      | ClickClose | StorageChanged _ => true
      | _ => false
      end
  | _, _ => false
  end.

(** The [copied] mark has a timer that will remove it. *)
Definition mark_expires (s : state) : Prop :=
  copied s = true -> (0 < copy_timers s)%nat.

(** The body that [translateText] hands to [sendToBackground] when
    called from the instance [s] (lines 557-560). *)
Definition translation_request (s : state) : jsval :=
  JObj [(Relay.k_text, JStr (selectedText s));
        (Relay.k_apiConfig, apiConfig s)].

(** An instance on which a mousedown has no effect: the listener is
    not installed, or returns at line 476 or at line 480. *)
Definition ignores_mousedown (s : state) : Prop :=
  listening s = false \/ isTranslateEnabled s = false
  \/ isOutsideClickProcessing s = true.

(** "Every [PopupUIState] field is reset to its initial default". *)
Definition popup_fields_reset (s : state) : Prop :=
  isResultVisible s = isResultVisible initial
  /\ isLoading s = isLoading initial
  /\ error s = error initial
  /\ translatedText s = translatedText initial
  /\ copied s = copied initial
  /\ position s = position initial
  /\ expandSource s = expandSource initial
  /\ expandTranslation s = expandTranslation initial.

(** The [i]-th call of [sendToBackground] has not settled. *)
Definition in_flight (i : nat) (s : state) : Prop :=
  (i < List.length (requests s))%nat.

(** The relay answered with a result the component accepts: no
    truthy [error], and the truthy [result] [v]. *)
Definition delivers (resp : Relay.response) (v : jsval) : Prop :=
  truthy (or_undefined (Relay.error resp)) = false
  /\ or_undefined (Relay.result resp) = v
  /\ truthy v = true.

End UISpec.

Module UIExamples.
Import UI.

Definition select_hello : event :=
  Mouseup Elsewhere (utf16 "hello") 120 240.

(** The user has selected [hello] and pressed the button: the popup
    is open and the request is on its way. *)
Definition translating : state :=
  run RefHost.host mounted [select_hello; ClickTranslate].

Definition reply (text : string) : Relay.response :=
  {| Relay.success := true;
     Relay.result := Some (JStr (utf16 text));
     Relay.error := None |}.

Definition select_chinese : event :=
  Mouseup Elsewhere (utf16 " 你好 ") 10 20.

(** A press on the page with nothing selected. *)
Definition click_away : event := Mousedown Elsewhere [].

(** The button is on the page. *)
Definition button_shown : state := run RefHost.host mounted [select_hello].

(** What the relay sends when it fails with the message [m]. *)
Definition failure (m : jsstring) : Relay.response :=
  {| Relay.success := false;
     Relay.result := None;
     Relay.error := Some (JStr m) |}.

(** What it sends when it succeeds with the value [v]. *)
Definition success_with (v : jsval) : Relay.response :=
  {| Relay.success := true;
     Relay.result := Some v;
     Relay.error := None |}.

(** The translation of [hello] has arrived and has been copied. *)
Definition translated : state :=
  step RefHost.host translating (RelaySettles 0 (inr (reply "你好"))).

Definition just_copied : state :=
  run RefHost.host translated [ClickCopy; ClipboardSettles true].

Definition switched_off : jsval := JObj [(k_enabled, JBool false)].
Definition switched_on : jsval := JObj [(k_enabled, JBool true)].

End UIExamples.

(* ================================================================== *)
(** * Properties *)

Unset Implicit Arguments.

(** ** Strings and values *)

Lemma eqb_eq (a b : jsstring) : eqb a b = true <-> a = b.
Proof.
  unfold eqb. destruct (list_eq_dec Z.eq_dec a b); split;
    intros; congruence.
Qed.

Lemma eqb_refl (a : jsstring) : eqb a a = true.
Proof. now apply eqb_eq. Qed.

Example utf16_ascii : utf16 "API" = [65; 80; 73].
Proof. reflexivity. Qed.

Example utf16_han : utf16 "中文" = [20013; 25991].
Proof. reflexivity. Qed.

Example trim_example : trim (utf16 "  a b
 ") = utf16 "a b".
Proof. reflexivity. Qed.

Example of_Z_example : of_Z 2048 = utf16 "2048" /\ of_Z (-7) = utf16 "-7"
                       /\ of_Z 0 = utf16 "0".
Proof. repeat split; reflexivity. Qed.

Example get_index_example :
  get (JArr [JNum 7; JNull]) (utf16 "1") = inr JNull
  /\ get (JArr [JNum 7; JNull]) (utf16 "01") = inr JUndefined
  /\ get (JStr (utf16 "ab")) (utf16 "0") = inr (JStr (utf16 "a"))
  /\ get (JArr [JNull]) key_length = inr (JNum 1).
Proof. repeat split; reflexivity. Qed.

Example ToString_example :
  ToString (JArr [JNum 1; JNull; JArr [JStr (utf16 "a"); JBool true]])
  = inr (utf16 "1,,a,true").
Proof. reflexivity. Qed.

Example parse_object :
  RefHost.parse (json "{'a' : [1, -20, true, null,{}], 'a\n' : 'x中' } ")
  = Some (JObj [(utf16 "a",
                 JArr [JNum 1; JNum (-20); JBool true; JNull; JObj []]);
                ([97; 10], JStr [120; 20013])]).
Proof. reflexivity. Qed.

Example parse_plain_text : RefHost.parse (utf16 "just plain text") = None.
Proof. reflexivity. Qed.

Example parse_refused : RefHost.parse (utf16 "[1] x") = None
                        /\ RefHost.parse (utf16 "01") = None
                        /\ RefHost.parse [] = None.
Proof. repeat split; reflexivity. Qed.

Lemma truthy_or_else (a b : jsval) :
  truthy b = true -> truthy (or_else a b) = true.
Proof. unfold or_else. destruct (truthy a) eqn:E; auto. Qed.

Lemma get_object (ps : list (jsstring * jsval)) (k : jsstring) :
  get (JObj ps) k = inr (or_undefined (lookup ps k)).
Proof. reflexivity. Qed.

Lemma get_truthy_total (v : jsval) (k : jsstring) :
  truthy v = true -> exists w, get v k = inr w.
Proof.
  destruct v; simpl; try discriminate; intros _; eauto.
  - destruct (eqb k key_length); eauto.
    destruct (index_of_key k); eauto.
  - destruct (eqb k key_length); eauto.
    destruct (index_of_key k); eauto.
Qed.

(* ================================================================== *)
(** ** The relay *)

Module RelayFacts.
Import Relay RelaySpec RelayExamples.

(** *** Running the handler on the examples of the specification *)

(** Section 8, property 2. *)
Example translation_field_used :
  run (answers true "OK"
         (json "{'choices':[{'message':{'content':'{\'translation\':\'hello\'}'}}]}"))
      (request "你好" "sk-1")
  = {| success := true; result := Some (JStr (utf16 "hello"));
       error := None |}.
Proof. vm_compute. reflexivity. Qed.

(** Property 3. *)
Example plain_text :
  run (answers true "OK"
         (json "{'choices':[{'message':{'content':'just plain text'}}]}"))
      (request "你好" "sk-1")
  = {| success := true; result := Some (JStr (utf16 "just plain text"));
       error := None |}.
Proof. vm_compute. reflexivity. Qed.

(** Property 4. *)
Example empty_key :
  handler RefHost.host (answers true "OK" []) (request "hello" "")
  = ([], {| success := false; result := None;
            error := Some (JStr (utf16 "缺少API密钥配置")) |}).
Proof. vm_compute. reflexivity. Qed.

(** Property 5. *)
Example invalid_key :
  run (answers false "Unauthorized"
         (json "{'error':{'message':'invalid key'}}"))
      (request "hello" "sk-bad")
  = {| success := false; result := None;
       error := Some (JStr (utf16 "API错误: invalid key")) |}.
Proof. vm_compute. reflexivity. Qed.

Example status_text_used :
  run (answers false "Too Many Requests" (json "{'error':'slow down'}"))
      (request "hello" "sk-1")
  = {| success := false; result := None;
       error := Some (JStr (utf16 "API错误: Too Many Requests")) |}.
Proof. vm_compute. reflexivity. Qed.

(** The request that reaches the provider. *)
Example request_sent :
  fst (handler RefHost.host (answers true "OK" []) (request "你好" "sk-1"))
  = [ {| url := default_url;
         method := utf16 "POST";
         content_type := utf16 "application/json";
         authorization := utf16 "Bearer sk-1";
         model := JStr default_model;
         system_content := prompt_to_english;
         user_content := JStr (utf16 "你好");
         temperature := 3 # 10;
         response_format := utf16 "json_object";
         max_tokens := 2048 |} ].
Proof. vm_compute. reflexivity. Qed.

(** *** Reading the response *)

Lemma get_first (x : jsval) (l : list jsval) :
  get (JArr (x :: l)) k_0 = inr x.
Proof. reflexivity. Qed.

Lemma get_length (l : list jsval) :
  get (JArr l) key_length = inr (JNum (Z.of_nat (List.length l))).
Proof. reflexivity. Qed.

Lemma gt_zero_length (h : Host) (x : jsval) (l : list jsval) :
  gt_zero h (JNum (Z.of_nat (List.length (x :: l)))) = inr true.
Proof.
reflexivity. Qed.

Lemma path_to_content (data : jsval) (c : jsstring) :
  first_choice_content data = Some c ->
  exists ps choice rest message,
    data = JObj ps
    /\ lookup ps k_choices = Some (JArr (JObj choice :: rest))
    /\ lookup choice k_message = Some (JObj message)
    /\ lookup message k_content = Some (JStr c).
Proof.
  destruct data as [ | | | | | |ps]; try discriminate. simpl.
  destruct (lookup ps k_choices) as [[ | | | | |[|[ | | | | | |choice] rest]|]|]
    eqn:Hc; try discriminate.
  destruct (lookup choice k_message) as [[ | | | | | |message]|] eqn:Hm;
    try discriminate.
  destruct (lookup message k_content) as [[ | | | |s| |]|] eqn:Hs;
    try discriminate.
  intros [= <-]. now exists ps, choice, rest, message.
Qed.

(** With a non-empty string at [choices[0].message.content] the
    outer [try] reaches the inner one with the trimmed string. *)
Lemma main_path_content (h : Host) (data : jsval) (c : jsstring) :
  first_choice_content data = Some c -> c <> [] ->
  main_path h data = pick_translation h (trim c).
Proof.
  intros Hc Hne.
  destruct (path_to_content _ _ Hc)
    as (ps & choice & rest & message & -> & H1 & H2 & H3).
  unfold main_path, has_content, get_path.
  simpl truthy. simpl negb. cbv iota.
  rewrite !get_object, H1. simpl.
  rewrite H2. simpl. rewrite H3. simpl.
  destruct c as [|u c']; [congruence|]. reflexivity.
Qed.

Lemma get_translation_other (v : jsval) :
  translation_field v = None -> truthy v = true ->
  get v k_translation = inr JUndefined
  \/ exists ps, v = JObj ps /\ lookup ps k_translation = None.
Proof.
  destruct v; simpl; try discriminate; intros H _;
    try (left; reflexivity).
  right. eauto.
Qed.

(** What the inner [try] of lines 79-91 chooses. *)
Lemma pick_translation_cases (h : Host) (t : jsstring) :
  (forall parsed v,
      JSON_parse h t = Some parsed ->
      translation_field parsed = Some v -> truthy v = true ->
      pick_translation h t = inr v)
  /\ (forall parsed,
      JSON_parse h t = Some parsed ->
      (translation_field parsed = None
       \/ exists v, translation_field parsed = Some v /\ truthy v = false) ->
      pick_translation h t = inr (JStr t))
  /\ (JSON_parse h t = None -> pick_translation h t = inr (JStr t)).
Proof.
  unfold pick_translation, parse_json. repeat split.
  - intros parsed v -> Hf Hv.
    destruct parsed; try discriminate. simpl in Hf. simpl.
    rewrite Hf. simpl. now rewrite Hv.
  - intros parsed -> Hf. simpl Js.bind.
    destruct (truthy parsed) eqn:Ht; [|reflexivity]. simpl negb. cbv iota.
    destruct Hf as [Hf|(v & Hf & Hv)].
    + destruct (get_translation_other _ Hf Ht) as [->|(ps & -> & Hl)].
      * reflexivity.
      * rewrite get_object, Hl. reflexivity.
    + destruct parsed; try discriminate. simpl in Hf.
      rewrite get_object, Hf. simpl. now rewrite Hv.
  - intros ->. reflexivity.
Qed.

(** *** The result of a response that carries content *)

Lemma handler_after_fetch (h : Host) (fetch : http_request -> fetch_outcome)
      (body : jsval) (rq : http_request) :
  build_request body = inr rq ->
  handler h fetch body = ([rq], send h (read_response h (fetch rq))).
Proof. intros H. unfold handler, translate. now rewrite H. Qed.

Lemma handler_before_fetch (h : Host)
      (fetch : http_request -> fetch_outcome) (body : jsval) (e : jserror) :
  build_request body = inl e ->
  handler h fetch body = ([], send h (inl e)).
Proof. intros H. unfold handler, translate. now rewrite H. Qed.

Lemma content_result (h : Host) (fetch : http_request -> fetch_outcome)
      (body : jsval) (rq : http_request) (statusText text : jsstring)
      (data : jsval) (c : jsstring) :
  build_request body = inr rq ->
  fetch rq = Response true statusText text ->
  JSON_parse h text = Some data ->
  first_choice_content data = Some c -> c <> [] ->
  snd (handler h fetch body)
  = send h (Js.try_catch (pick_translation h (trim c))
                         (fun _ => fallback h data)).
Proof.
  intros Hb Hf Hp Hc Hne.
  rewrite (handler_after_fetch h fetch _ _ Hb), Hf. simpl snd.
  unfold read_response. simpl negb. cbv iota.
  unfold parse_json at 1. rewrite Hp. simpl Js.bind.
  unfold extract. now rewrite (main_path_content h _ _ Hc Hne).
Qed.

(** C2, as amended: on a 2xx response whose first choice's message
    content is a non-empty string [c], let [t] be [c] trimmed.  If
    [t] parses as JSON to an object with a truthy [translation]
    field (a non-empty string, for one), the result is that field;
    if [t] parses as JSON to anything else, the result is [t]; if
    [t] does not parse, the result is [t] as well, and [success]
    is [true] in all three cases. *)
Theorem C2_content_trimmed_then_parsed
        (h : Host) (fetch : http_request -> fetch_outcome)
        (body : jsval) (rq : http_request) (statusText text : jsstring)
        (data : jsval) (c : jsstring) :
  build_request body = inr rq ->
  fetch rq = Response true statusText text ->
  JSON_parse h text = Some data ->
  first_choice_content data = Some c -> c <> [] ->
  let r := snd (handler h fetch body) in
  let t := trim c in
  (forall parsed v,
      JSON_parse h t = Some parsed ->
      translation_field parsed = Some v -> truthy v = true ->
      succeeded r v)
  /\ (forall parsed,
      JSON_parse h t = Some parsed ->
      (translation_field parsed = None
       \/ exists v, translation_field parsed = Some v /\ truthy v = false) ->
      succeeded r (JStr t))
  /\ (JSON_parse h t = None -> succeeded r (JStr t)).
Proof.
  intros Hb Hf Hp Hc Hne r t. subst r.
  rewrite (content_result h fetch _ _ _ _ _ _ Hb Hf Hp Hc Hne). fold t.
  destruct (pick_translation_cases h t) as (P1 & P2 & P3).
  unfold succeeded. repeat split.
  - intros parsed v H1 H2 H3. now rewrite (P1 _ _ H1 H2 H3).
  - intros parsed H1 H2. now rewrite (P2 _ H1 H2).
  - intros H1. now rewrite (P3 H1).
Qed.

Lemma C2_content_trimmed_then_parsed_witness :
  succeeded (run (answers true "OK" hello_body) (request "你好" "sk-1"))
            (JStr (utf16 "hello"))
  /\ succeeded (run (answers true "OK" newline_body)
                    (request "你好" "sk-1"))
               (JStr (utf16 "hello world")).
Proof.
  split.
  - refine (proj1 (C2_content_trimmed_then_parsed
             RefHost.host (answers true "OK" hello_body)
             (request "你好" "sk-1") sent_request (utf16 "OK") hello_body
             (JObj [(k_choices,
                     JArr [JObj [(k_message,
                                  JObj [(k_content,
                                         JStr (json " {'translation':'hello'}" +++ [10]))])]])])
             (json " {'translation':'hello'}" +++ [10])
             _ _ _ _ _)
             (JObj [(k_translation, JStr (utf16 "hello"))])
             (JStr (utf16 "hello")) _ _ _);
      solve [vm_compute; reflexivity | discriminate].
  - refine (proj2 (proj2 (C2_content_trimmed_then_parsed
             RefHost.host (answers true "OK" newline_body)
             (request "你好" "sk-1") sent_request (utf16 "OK") newline_body
             (JObj [(k_choices,
                     JArr [JObj [(k_message,
                                  JObj [(k_content,
                                         JStr (utf16 "hello world" +++ [10]))])]])])
             (utf16 "hello world" +++ [10])
             _ _ _ _ _)) _);
      solve [vm_compute; reflexivity | discriminate].
Defined.

(** C2, as stated, fails: the content [hello world] followed by a
    line feed is not JSON, and the result is not that raw string but
    the trimmed one. *)
Lemma C2_raw_content_counterexample :
  let c := utf16 "hello world" +++ [10] in
  match RefHost.parse newline_body with
  | Some data => first_choice_content data
  | None => None
  end = Some c
  /\ RefHost.parse c = None
  /\ run (answers true "OK" newline_body) (request "你好" "sk-1")
     = {| success := true; result := Some (JStr (utf16 "hello world"));
          error := None |}
  /\ JStr (utf16 "hello world") <> JStr c.
Proof.
  repeat split; try (vm_compute; reflexivity). vm_compute. discriminate.
Qed.

(** A [translation] field that is present but empty is passed over
    for the content. *)
Example empty_translation :
  run (answers true "OK"
         (json "{'choices':[{'message':{'content':'{\'translation\':\'\'}'}}]}"))
      (request "你好" "sk-1")
  = {| success := true; result := Some (JStr (json "{'translation':''}"));
       error := None |}.
Proof. vm_compute. reflexivity. Qed.

(** *** The missing key *)

(** C3: a request whose [apiConfig.apiKey] is empty or absent is
    answered with [{success:false, error:"缺少API密钥配置"}], and no
    HTTP request is sent. *)
Theorem C3_missing_key_no_call
        (h : Host) (fetch : http_request -> fetch_outcome) (body : jsval) :
  apiKey_missing body = true ->
  handler h fetch body
  = ([], {| success := false; result := None;
            error := Some (JStr (utf16 "缺少API密钥配置")) |}).
Proof.
  intros H. destruct body as [ | | | | | |ps]; try discriminate.
  simpl in H.
  assert (E : build_request (JObj ps) = inl (Error msg_missing_key)).
  { unfold build_request. rewrite !get_object. simpl Js.bind.
    destruct (or_undefined (lookup ps k_apiConfig)) as [ | | | |[|]| |cfg];
      try discriminate; try reflexivity.
    simpl truthy. simpl negb. cbv iota. rewrite get_object. simpl Js.bind.
    destruct (or_undefined (lookup cfg k_apiKey)) as [ | | | |[|]| |];
      try discriminate; reflexivity. }
  rewrite (handler_before_fetch h fetch _ _ E). reflexivity.
Qed.

Lemma C3_missing_key_no_call_witness :
  handler RefHost.host (answers true "OK" []) (request "hello" "")
  = ([], {| success := false; result := None;
            error := Some (JStr (utf16 "缺少API密钥配置")) |})
  /\ handler RefHost.host (answers true "OK" [])
             (JObj [(k_text, JStr (utf16 "hello"))])
     = ([], {| success := false; result := None;
               error := Some (JStr (utf16 "缺少API密钥配置")) |}).
Proof.
  split; apply C3_missing_key_no_call; reflexivity.
Defined.

(** *** Responses that are not 2xx *)

(** When the body of a non-2xx response parses to an object, the
    failure is [API错误: ] followed by [error.message] if that is
    truthy, and by the status text otherwise. *)
Lemma api_error_reported
      (h : Host) (statusText text : jsstring)
      (ps : list (jsstring * jsval)) (detail : jsstring) :
  JSON_parse h text = Some (JObj ps) ->
  (provided <- get_opt (or_undefined (lookup ps k_error)) k_message ;;
   ToString (or_else provided (JStr statusText))) = inr detail ->
  read_response h (Response false statusText text)
  = inl (Error (msg_api_error +++ detail)).
Proof.
  intros Hp Hd. unfold read_response. simpl negb. cbv iota.
  unfold parse_json. rewrite Hp. simpl.
  destruct (get_opt (or_undefined (lookup ps k_error)) k_message)
    as [e|provided]; simpl in Hd |- *; [discriminate|].
  now rewrite Hd.
Qed.

(** When it does not parse, [response.json()] throws before the
    status text is looked at. *)
Lemma error_body_not_json (h : Host) (statusText text : jsstring) :
  JSON_parse h text = None ->
  read_response h (Response false statusText text)
  = inl (SyntaxError_json text).
Proof.
  intros Hp. unfold read_response. simpl negb. cbv iota.
  unfold parse_json. now rewrite Hp.
Qed.

(** C4 at the failing input: a 502 whose body is an HTML page.  The
    handler fails with the SyntaxError of [response.json()], not
    with [API错误: Bad Gateway]. *)
Theorem C4_error_body_not_json :
  let net := answers false "Bad Gateway" gateway_page in
  snd (translate RefHost.host net (request "hello" "sk-1"))
  = inl (SyntaxError_json gateway_page)
  /\ run net (request "hello" "sk-1")
     = {| success := false; result := None;
          error := Some (JStr (engine_message RefHost.host
                                 (SyntaxError_json gateway_page))) |}
  /\ ~ failed (run net (request "hello" "sk-1"))
              (utf16 "API错误: Bad Gateway").
Proof.
  repeat split; try (vm_compute; reflexivity).
  unfold failed. vm_compute. discriminate.
Qed.

(** *** One payload *)

Lemma pick_translation_presentable (h : Host) (t : jsstring) (v : jsval) :
  pick_translation h t = inr v -> presentable v.
Proof.
  unfold pick_translation, parse_json, presentable.
  destruct (JSON_parse h t) as [parsed|]; simpl.
  - destruct (truthy parsed) eqn:Ht; simpl.
    + destruct (get_truthy_total parsed k_translation Ht) as (w & ->).
      simpl. destruct (truthy w) eqn:Hw; intros [= <-]; auto.
    + intros [= <-]; auto.
  - intros [= <-]; auto.
Qed.

Ltac next_bind := cbn [Js.bind negb]; try discriminate.

Lemma main_path_presentable (h : Host) (data v : jsval) :
  main_path h data = inr v -> presentable v.
Proof.
  unfold main_path.
  destruct (has_content h data) as [e|[|]]; next_bind.
  destruct (get_path data [k_choices; k_0; k_message; k_content])
    as [e|raw]; next_bind.
  destruct (call_trim raw) as [e|content]; next_bind.
  apply pick_translation_presentable.
Qed.

Lemma fallback_presentable (h : Host) (data v : jsval) :
  fallback h data = inr v -> presentable v.
Proof.
  assert (G : forall w, presentable (or_else w (JStr msg_no_result))).
  { intros w. right. now apply truthy_or_else. }
  assert (F : presentable (JStr msg_no_result)) by (now left).
  unfold fallback.
  destruct (truthy data); next_bind; [|intros [= <-]; exact F].
  destruct (get_path data [k_choices]) as [e|choices]; next_bind.
  destruct (truthy choices); next_bind; [|intros [= <-]; exact F].
  destruct (get_path data [k_choices; key_length]) as [e|len]; next_bind.
  destruct (gt_zero h len) as [e|[|]]; next_bind;
    [|intros [= <-]; exact F].
  destruct (get_path data [k_choices; k_0; k_message]) as [e|message];
    next_bind.
  destruct (get_opt message k_content) as [e|content]; next_bind.
  intros [= <-]. apply G.
Qed.

Lemma read_response_presentable (h : Host) (r : fetch_outcome) (v : jsval) :
  read_response h r = inr v -> presentable v.
Proof.
  destruct r as [m|[|] statusText text]; simpl; try discriminate.
  - destruct (parse_json h text) as [e|data]; simpl; try discriminate.
    unfold extract, Js.try_catch.
    destruct (main_path h data) as [e|w] eqn:Hm.
    + apply fallback_presentable.
    + intros [= <-]. exact (main_path_presentable h data w Hm).
  - destruct (parse_json h text) as [e|errorData]; simpl;
      try discriminate.
    destruct (get errorData k_error) as [e|err]; simpl; try discriminate.
    destruct (get_opt err k_message) as [e|provided]; simpl;
      try discriminate.
    destruct (ToString (or_else provided (JStr statusText))); simpl;
      discriminate.
Qed.

(** C7, as amended: the answer to every request is either
    [success = true] with a result and no error, or [success = false]
    with an error string and no result.  The result is a string or,
    when the provider put another JSON value in [translation] or in
    [content], that truthy value. *)
Theorem C7_one_payload
        (h : Host) (fetch : http_request -> fetch_outcome) (body : jsval) :
  let r := snd (handler h fetch body) in
  (success r = true /\ error r = None
   /\ exists v, result r = Some v /\ presentable v)
  \/ (success r = false /\ result r = None
      /\ exists m, error r = Some (JStr m)).
Proof.
  unfold handler, translate.
  destruct (build_request body) as [e|rq]; simpl.
  - right. eauto.
  - destruct (read_response h (fetch rq)) as [e|v] eqn:Hr; simpl.
    + right. eauto.
    + left. repeat split. exists v. split; [reflexivity|].
      exact (read_response_presentable h (fetch rq) v Hr).
Qed.

(** C7, as stated, fails: when the model answers
    [{"translation": 42}] the result is a number. *)
Lemma C7_result_string_counterexample :
  run (answers true "OK"
         (json "{'choices':[{'message':{'content':'{\'translation\': 42}'}}]}"))
      (request "四十二" "sk-1")
  = {| success := true; result := Some (JNum 42); error := None |}
  /\ is_string (JNum 42) = false.
Proof. split; vm_compute; reflexivity. Qed.

(** *** Bodies of another shape *)

(** C10 at the failing input: on a 200 whose [choices] holds
    [null], reading [choices[0].message] throws inside the [catch]
    of lines 95-103 as it did inside the [try], and the handler
    answers [success = false]. *)
Theorem C10_null_choice_fails :
  let net := answers true "OK" null_choice_body in
  RefHost.parse null_choice_body = Some (JObj [(k_choices, JArr [JNull])])
  /\ snd (translate RefHost.host net (request "hello" "sk-1"))
     = inl (TypeError_read JNull k_message)
  /\ success (run net (request "hello" "sk-1")) = false
  /\ result (run net (request "hello" "sk-1")) = None.
Proof. repeat split; vm_compute; reflexivity. Qed.

(** On every host the [catch] of lines 95-103 throws for such a
    body. *)
Lemma fallback_null_choice (h : Host) (rest : list jsval) :
  extract h (JObj [(k_choices, JArr (JNull :: rest))])
  = inl (TypeError_read JNull k_message).
Proof. reflexivity. Qed.

(** Bodies without [choices], or with an empty one, or whose first
    choice has no message, do get the fixed text and [success]. *)
Example no_choices :
  run (answers true "OK" (json "{'id':7}")) (request "hello" "sk-1")
  = {| success := true; result := Some (JStr (utf16 "获取翻译结果失败"));
       error := None |}
  /\ run (answers true "OK" (json "{'choices':[]}"))
         (request "hello" "sk-1")
     = {| success := true; result := Some (JStr (utf16 "获取翻译结果失败"));
          error := None |}
  /\ run (answers true "OK" (json "{'choices':[{'index':0}]}"))
         (request "hello" "sk-1")
     = {| success := true; result := Some (JStr (utf16 "获取翻译结果失败"));
          error := None |}.
Proof. repeat split; vm_compute; reflexivity. Qed.

(** Content that is present but not a string comes back as it is. *)
Example content_not_string :
  run (answers true "OK" (json "{'choices':[{'message':{'content':5}}]}"))
      (request "hello" "sk-1")
  = {| success := true; result := Some (JNum 5); error := None |}.
Proof. vm_compute. reflexivity. Qed.

End RelayFacts.

(* ================================================================== *)
(** ** The component *)

Module UIFacts.
Import UI UISpec UIExamples.

Ltac open_state s :=
  destruct s as [bv rv st po tx lo er tr co es et fl cf li de rq rt fr cw ct].

Arguments enabled_in : simpl never.

(** Opens the instance and splits on the value of line 421. *)
Ltac open_enabled s En :=
  open_state s; unfold isTranslateEnabled in *; simpl in *;
  match goal with
  | cf : jsval |- _ =>
      match goal with
      | |- context [enabled_in cf] => idtac
      | H : context [enabled_in cf] |- _ => idtac
      end;
      destruct (enabled_in cf) eqn:En
  end.

Ltac reduce En := repeat (progress (simpl in *; rewrite ?En in * )).

Lemma commit_once_stable (s : state) :
  deps s = Some (dependencies s) -> commit_once s = s.
Proof.
  intros H. unfold commit_once. rewrite H.
  unfold same_dependencies, dependencies.
  now rewrite !Bool.eqb_reflx.
Qed.

Lemma commit_stable (s : state) :
  deps s = Some (dependencies s) -> commit s = s.
Proof.
  intros H. unfold commit. now rewrite !(commit_once_stable s H).
Qed.

Lemma same_dependencies_true (a b : bool * bool * bool) :
  same_dependencies (Some a) b = true -> a = b.
Proof.
  destruct a as [[a1 a2] a3], b as [[b1 b2] b3]. simpl.
  intros H. apply andb_prop in H. destruct H as [H H3].
  apply andb_prop in H. destruct H as [H1 H2].
  apply Bool.eqb_prop in H1, H2, H3. congruence.
Qed.

(** What a commit leaves behind, whatever it started from. *)
Lemma commit_outcome (s : state) :
  let s' := commit s in
  apiConfig s' = apiConfig s
  /\ deps s' = (if same_dependencies (deps s) (dependencies s)
                then deps s else Some (dependencies s'))
  /\ (same_dependencies (deps s) (dependencies s) = true -> s' = s)
  /\ (same_dependencies (deps s) (dependencies s) = false ->
      listening s' = isTranslateEnabled s
      /\ (isTranslateEnabled s = false ->
          isButtonVisible s' = false /\ isResultVisible s' = false
          /\ isTranslating s' = false)).
Proof.
  unfold commit, commit_once, effect, dependencies.
  open_enabled s En;
    (destruct de as [[[d1 d2] d3]|]; simpl;
     destruct tr, rv; try destruct d1; try destruct d2; try destruct d3;
     reduce En; repeat split; intros; try discriminate; auto).
Qed.


Lemma mounted_consistent : consistent mounted.
Proof. repeat split; intros; try reflexivity; discriminate. Qed.

(** *** What is on the page *)

Lemma button_mounted_eq (s : state) :
  button_mounted s = isTranslateEnabled s && isButtonVisible s.
Proof.
  unfold button_mounted, render. open_enabled s En; destruct bv, rv; reflexivity.
Qed.

Lemma popup_mounted_eq (s : state) :
  popup_mounted s = isTranslateEnabled s && isResultVisible s.
Proof.
  unfold popup_mounted, render. open_enabled s En; destruct bv, rv; reflexivity.
Qed.

Lemma result_mounted_popup (s : state) :
  result_mounted s = true -> popup_mounted s = true.
Proof.
  unfold result_mounted, popup_mounted, render.
  open_enabled s En; destruct bv, rv; simpl; congruence.
Qed.

Lemma copy_mounted_result (s : state) :
  copy_mounted s = true ->
  result_mounted s = true /\ truthy (translatedText s) = true.
Proof.
  unfold copy_mounted, result_mounted, render, ResultPopup.
  open_enabled s En; destruct bv, rv, lo; simpl; try discriminate;
    destruct er as [[|c m]|]; simpl; try discriminate;
    destruct (truthy tx); try discriminate; auto.
Qed.

(** A commit touches the effect's bookkeeping and the three cells the
    effect clears, nothing else; it clears them only while the feature
    is disabled. *)
Lemma commit_shape (s : state) :
  exists keep li de,
    commit s
    = set_isButtonVisible (isButtonVisible s && keep)
        (set_isResultVisible (isResultVisible s && keep)
           (set_isTranslating (isTranslating s && keep)
              (set_listening li (set_deps de s))))
    /\ (isTranslateEnabled s = true -> keep = true).
Proof.
  unfold commit, commit_once, effect, dependencies.
  open_enabled s En;
    (destruct de as [[[d1 d2] d3]|]; simpl;
     destruct bv, tr, rv; try destruct d1; try destruct d2; try destruct d3;
     reduce En;
     solve [ exists true; do 2 eexists; split; [reflexivity|auto]
           | exists false; do 2 eexists; split;
             [reflexivity|intros; discriminate] ]).
Qed.

Lemma commit_frame (s : state) :
  exists bv rv tr li de,
    commit s
    = set_isButtonVisible bv
        (set_isResultVisible rv
           (set_isTranslating tr (set_listening li (set_deps de s)))).
Proof.
  destruct (commit_shape s) as (keep & li & de & E & _).
  rewrite E. now do 5 eexists.
Qed.


(** *** What an event leaves alone *)

Ltac case_conditions :=
  repeat match goal with
    | |- context [if ?b then _ else _] => destruct b eqn:?
    | |- context [match ?x with _ => _ end] => destruct x eqn:?
    end.

Ltac run_handler s :=
  unfold handleSelection, handleClickOutside, handleTranslate, translateText,
    translateText_resume, closeResult, copyTranslatedText;
  rewrite ?button_mounted_eq, ?popup_mounted_eq;
  open_state s; unfold isTranslateEnabled; simpl.

(** No handler touches the effect's bookkeeping, and only a change of
    the stored settings touches [apiConfig]. *)
Lemma dispatch_frame (h : Host) (e : event) (s : state) :
  deps (dispatch h e s) = deps s
  /\ listening (dispatch h e s) = listening s
  /\ (is_storage_change e = false ->
      apiConfig (dispatch h e s) = apiConfig s).
Proof.
  destruct e; unfold dispatch; run_handler s; case_conditions; simpl;
    repeat split; intros; auto; discriminate.
Qed.


Lemma dispatch_storage (h : Host) (data : jsval) (s : state) :
  dispatch h (StorageChanged data) s = set_apiConfig data s.
Proof. reflexivity. Qed.

(** The processing flag is set exactly while its release is pending. *)
Lemma dispatch_release (h : Host) (e : event) (s : state) :
  release_timers s = (if isOutsideClickProcessing s then 1 else 0)%nat ->
  release_timers (dispatch h e s)
  = (if isOutsideClickProcessing (dispatch h e s) then 1 else 0)%nat.
Proof.
  destruct e; unfold dispatch; run_handler s; intros Hr; subst;
    case_conditions; simpl in *; try reflexivity; try congruence.
Qed.

(** While the feature is disabled nothing comes into view. *)
Lemma dispatch_hidden (h : Host) (e : event) (s : state) :
  isTranslateEnabled s = false ->
  isButtonVisible s = false -> isResultVisible s = false ->
  isTranslating s = false ->
  isButtonVisible (dispatch h e s) = false
  /\ isResultVisible (dispatch h e s) = false
  /\ isTranslating (dispatch h e s) = false.
Proof.
  destruct e; unfold dispatch, copy_mounted, result_mounted, render;
    run_handler s;
    intros En ? ? ?; subst; rewrite ?En; simpl;
    case_conditions; simpl; auto.
Qed.

Lemma step_consistent (h : Host) (s : state) (e : event) :
  consistent s -> consistent (step h s e).
Proof.
  intros (Hd & Hl & Hh & Hr). unfold step.
  set (d := dispatch h e s).
  destruct (dispatch_frame h e s) as (Fd & Fl & Fa).
  pose proof (dispatch_release h e s Hr) as Fr.
  fold d in Fd, Fl, Fa, Fr.
  destruct (commit_outcome d) as (Oa & Od & Os & Oc).
  destruct (commit_frame d) as (bv & rv & tr & li & de & Of).
  assert (Or : release_timers (commit d) = release_timers d
               /\ isOutsideClickProcessing (commit d)
                  = isOutsideClickProcessing d).
  { rewrite Of. now destruct d. }
  destruct Or as (Or1 & Or2).
  assert (Oe : isTranslateEnabled (commit d) = isTranslateEnabled d).
  { unfold isTranslateEnabled. now rewrite Oa. }
  destruct (same_dependencies (deps d) (dependencies d)) eqn:Same.
  - rewrite (Os eq_refl).
    rewrite Fd, Hd in Same. apply same_dependencies_true in Same.
    assert (Ee : isTranslateEnabled d = isTranslateEnabled s).
    { unfold dependencies in Same. congruence. }
    repeat split.
    + now rewrite Fd, Hd, Same.
    + now rewrite Fl, Hl, Ee.
    + rewrite Ee in H. destruct (Hh H) as (? & ? & ?).
      now apply dispatch_hidden.
    + rewrite Ee in H. destruct (Hh H) as (? & ? & ?).
      now apply dispatch_hidden.
    + rewrite Ee in H. destruct (Hh H) as (? & ? & ?).
      now apply dispatch_hidden.
    + exact Fr.
  - destruct (Oc eq_refl) as (Ol & Oh).
    repeat split.
    + exact Od.
    + now rewrite Ol, Oe.
    + rewrite Oe in H. now destruct (Oh H).
    + rewrite Oe in H. now destruct (Oh H) as (? & ? & ?).
    + rewrite Oe in H. now destruct (Oh H) as (? & ? & ?).
    + now rewrite Or1, Or2.
Qed.

Lemma reachable_consistent (h : Host) (s : state) :
  reachable h s -> consistent s.
Proof.
  induction 1 as [|s e _ IH].
  - exact mounted_consistent.
  - now apply step_consistent.
Qed.


(** *** Closing the popup *)

Ltac commit_shape_of x keep K :=
  let li := fresh "li'" in
  let de := fresh "de'" in
  let E := fresh "E" in
  destruct (commit_shape x) as (keep & li & de & E & K);
  rewrite E; clear E.

(** C6, as amended: closing the popup hides it and puts
    [translatedText], [error], [copied], both expand flags and
    [isTranslating] back to their initial values; [isLoading] and
    [position] are left as they were. *)
Theorem C6_close_resets_listed_cells (h : Host) (s : state) :
  popup_mounted s = true ->
  let s' := step h s ClickClose in
  (isResultVisible s' = false /\ popup_mounted s' = false
   /\ translatedText s' = JStr [] /\ error s' = None
   /\ copied s' = false /\ expandSource s' = false
   /\ expandTranslation s' = false /\ isTranslating s' = false)
  /\ isLoading s' = isLoading s
  /\ position s' = position s.
Proof.
  intros Hp. unfold step, dispatch. rewrite Hp. cbv zeta.
  rewrite popup_mounted_eq.
  commit_shape_of (closeResult s) keep K.
  open_state s. simpl. rewrite andb_false_r. repeat split.
Qed.

Lemma C6_close_resets_listed_cells_witness :
  popup_mounted translating = true
  /\ isLoading (step RefHost.host translating ClickClose)
     = isLoading translating
  /\ position (step RefHost.host translating ClickClose)
     = position translating.
Proof.
  split; [vm_compute; reflexivity|].
  refine (proj2 (C6_close_resets_listed_cells RefHost.host translating _)).
  vm_compute. reflexivity.
Defined.

(** C6, as stated, fails: closed while the request is on its way, the
    popup keeps [isLoading = true] and its position below the
    selection. *)
Lemma C6_not_all_fields_reset_counterexample :
  popup_mounted translating = true
  /\ ~ popup_fields_reset (step RefHost.host translating ClickClose).
Proof.
  split; [vm_compute; reflexivity|].
  intros (_ & Hl & _). vm_compute in Hl. discriminate.
Qed.


(** *** A result that arrives after the popup was closed *)

(** C1, as amended: when the popup is closed while a request is on
    its way and the relay then answers with a result, the result is
    stored in [translatedText] and [isLoading] is cleared; the popup
    stays closed.  Nothing ties an answer to the popup that asked. *)
Theorem C1_late_result_applied (h : Host) (s : state) (i : nat)
        (resp : Relay.response) (v : jsval) :
  popup_mounted s = true -> in_flight i s -> delivers resp v ->
  let closed := step h s ClickClose in
  let late := step h closed (RelaySettles i (inr resp)) in
  translatedText closed = JStr []
  /\ translatedText late = v
  /\ isLoading late = false
  /\ isResultVisible late = false
  /\ popup_mounted late = false.
Proof.
  intros Hp Hi (He & Hv & Ht). unfold step.
  assert (Hc : dispatch h ClickClose s = closeResult s)
    by (unfold dispatch; now rewrite Hp).
  rewrite Hc. clear Hc Hp. cbv zeta. rewrite popup_mounted_eq.
  unfold in_flight in Hi.
  destruct (nth_error (requests s) i) as [rq0|] eqn:Hn;
    [|apply nth_error_None in Hn; lia].
  open_state s. simpl in Hn.
  commit_shape_of
    (closeResult (Build_state bv rv st po tx lo er tr co es et fl cf li de
                    rq rt fr cw ct)) keep K.
  simpl. split; [reflexivity|].
  unfold dispatch. simpl. rewrite Hn.
  unfold translateText_resume. simpl. rewrite He, Hv, Ht. simpl.
  match goal with
  | |- context [commit ?x] => commit_shape_of x keep' K'
  end.
  simpl. rewrite !andb_false_r. repeat split.
Qed.

Lemma C1_late_result_applied_witness :
  let closed := step RefHost.host translating ClickClose in
  translatedText (step RefHost.host closed (RelaySettles 0 (inr (reply "你好"))))
  = JStr (utf16 "你好").
Proof.
  refine (proj1 (proj2 (C1_late_result_applied RefHost.host translating 0
                          (reply "你好") (JStr (utf16 "你好")) _ _ _))).
  - vm_compute. reflexivity.
  - unfold in_flight. vm_compute. lia.
  - repeat split.
Defined.

(** C1, as stated, fails: the answer to a request whose popup was
    closed is not discarded; [translatedText], reset by the close,
    holds it afterwards. *)
Lemma C1_stale_result_counterexample :
  let closed := step RefHost.host translating ClickClose in
  let late := step RefHost.host closed (RelaySettles 0 (inr (reply "你好"))) in
  in_flight 0 translating
  /\ translatedText closed = translatedText initial
  /\ translatedText late <> translatedText initial.
Proof.
  repeat split.
  - unfold in_flight. vm_compute. lia.
  - vm_compute. discriminate.
Qed.


(** *** Outside clicks *)

(** A mousedown changes the processing flag and what is scheduled,
    and no cell; it schedules at most one frame, and afterwards
    further ones are ignored. *)
Lemma mousedown_outcome (h : Host) (s : state) (t : target)
      (sel : jsstring) :
  let d := dispatch h (Mousedown t sel) s in
  (ignores_mousedown s -> d = s)
  /\ (exists fl' fr' rt',
        d = set_release_timers rt'
              (set_frames fr' (set_isOutsideClickProcessing fl' s))
        /\ (frames s <= fr' <= S (frames s))%nat)
  /\ (listening s = isTranslateEnabled s -> ignores_mousedown d).
Proof.
  unfold ignores_mousedown, dispatch. run_handler s.
  destruct li, (enabled_in cf), fl; simpl; repeat split;
    try (intros [?|[?|?]]; (discriminate || reflexivity));
    try (do 3 eexists; split; [reflexivity|simpl; lia]);
    try (intros ?; simpl; tauto);
    try discriminate.
  - destruct (_ && is_button t);
      [|destruct (_ && _)]; do 3 eexists; split; try reflexivity;
      simpl; lia.
  - intros _. destruct (_ && is_button t);
      [|destruct (_ && _)]; simpl; tauto.
Qed.

Lemma mousedown_step (h : Host) (s : state) (t : target) (sel : jsstring) :
  consistent s ->
  step h s (Mousedown t sel) = dispatch h (Mousedown t sel) s.
Proof.
  intros (Hd & _). unfold step. apply commit_stable.
  destruct (mousedown_outcome h s t sel) as (_ & (fl' & fr' & rt' & E & _) & _).
  rewrite E. now destruct s.
Qed.

(** Mousedowns that reach an instance which ignores them leave it
    as it is. *)
Lemma burst_ignored (h : Host) (es : list event) (s : state) :
  consistent s -> ignores_mousedown s ->
  forallb is_mousedown es = true -> run h s es = s.
Proof.
  intros Hc Hi. induction es as [|e es IH]; [reflexivity|].
  simpl. intros H. apply andb_prop in H. destruct H as (He & Hes).
  destruct e; try discriminate.
  rewrite (mousedown_step h s t selection Hc).
  destruct (mousedown_outcome h s t selection) as (E & _).
  rewrite (E Hi). now apply IH.
Qed.


Lemma reachable_run (h : Host) (es : list event) (s : state) :
  reachable h s -> reachable h (run h s es).
Proof.
  revert s. induction es as [|e es IH]; intros s H; [exact H|].
  apply IH. now apply reachable_step.
Qed.

Lemma release_clears (h : Host) (s : state) :
  release_timers s = 1%nat ->
  isOutsideClickProcessing (step h s ReleaseTimerFires) = false.
Proof.
  intros Hr. unfold step, dispatch. rewrite Hr.
  match goal with
  | |- context [commit ?x] => commit_shape_of x keep K
  end.
  now destruct s.
Qed.

(** C8: while the processing flag is set a mousedown changes
    nothing, and the flag's release is pending and clears it.  A run
    of mousedowns therefore does what its first one does, which
    changes no cell and schedules at most one hiding of the button. *)
Theorem C8_outside_click_burst (h : Host) (s : state) :
  reachable h s ->
  (isOutsideClickProcessing s = true ->
   (forall t sel, step h s (Mousedown t sel) = s)
   /\ release_timers s = 1%nat
   /\ isOutsideClickProcessing (step h s ReleaseTimerFires) = false)
  /\ (forall e es,
        is_mousedown e = true -> forallb is_mousedown es = true ->
        run h s (e :: es) = step h s e
        /\ same_cells (step h s e) s
        /\ (frames (step h s e) <= S (frames s))%nat).
Proof.
  intros Hreach. pose proof (reachable_consistent h s Hreach) as Hc.
  split.
  - intros Hf.
    assert (Hr : release_timers s = 1%nat).
    { destruct Hc as (_ & _ & _ & Hr). now rewrite Hf in Hr. }
    repeat split.
    + intros t sel. rewrite (mousedown_step h s t sel Hc).
      apply (mousedown_outcome h s t sel). unfold ignores_mousedown. tauto.
    + exact Hr.
    + now apply release_clears.
  - intros e es He Hes. destruct e; try discriminate.
    destruct (mousedown_outcome h s t selection)
      as (_ & (fl' & fr' & rt' & E & Hfr) & Hi).
    pose proof (step_consistent h s (Mousedown t selection) Hc) as Hc'.
    simpl run. rewrite (mousedown_step h s t selection Hc) in *.
    split; [|split].
    + apply burst_ignored; auto. apply Hi. apply Hc.
    + rewrite E. now destruct s.
    + rewrite E. destruct s; simpl in *. lia.
Qed.

Lemma C8_outside_click_burst_witness :
  run RefHost.host button_shown [click_away; click_away; click_away]
  = step RefHost.host button_shown click_away
  /\ same_cells (step RefHost.host button_shown click_away) button_shown
  /\ (frames (step RefHost.host button_shown click_away)
      <= S (frames button_shown))%nat.
Proof.
  refine (proj2 (C8_outside_click_burst RefHost.host button_shown _)
                click_away [click_away; click_away] _ _).
  - exact (@reachable_step RefHost.host mounted select_hello
             (reachable_mounted RefHost.host)).
  - reflexivity.
  - reflexivity.
Defined.


(** *** Switching the feature off and on *)

Lemma disables_enabled_in (data : jsval) :
  disables data -> enabled_in data = false.
Proof. unfold disables, enabled_in. now intros ->. Qed.

Lemma commit_apiConfig (s : state) : apiConfig (commit s) = apiConfig s.
Proof. apply (commit_outcome s). Qed.

Lemma step_apiConfig (h : Host) (s : state) (e : event) :
  keeps_settings e = true -> apiConfig (step h s e) = apiConfig s.
Proof.
  intros He. unfold step. rewrite commit_apiConfig.
  apply (dispatch_frame h e s). now destruct e.
Qed.

Lemma step_storage (h : Host) (s : state) (data : jsval) :
  apiConfig (step h s (StorageChanged data)) = data.
Proof. unfold step. rewrite commit_apiConfig. now destruct s. Qed.

Lemma disabled_detached (s : state) :
  consistent s -> isTranslateEnabled s = false -> detached s.
Proof.
  intros (_ & Hl & Hh & _) En. destruct (Hh En) as (Hb & Hr & Ht).
  unfold detached, render. rewrite En. repeat split; congruence.
Qed.

Lemma disabled_stays (h : Host) (es : list event) (s : state) :
  consistent s -> isTranslateEnabled s = false ->
  forallb keeps_settings es = true ->
  consistent (run h s es) /\ isTranslateEnabled (run h s es) = false.
Proof.
  revert s. induction es as [|e es IH]; intros s Hc En H; [auto|].
  simpl in H. apply andb_prop in H. destruct H as (He & Hes).
  simpl. apply IH; auto.
  - now apply step_consistent.
  - unfold isTranslateEnabled in *. now rewrite step_apiConfig.
Qed.

(** C9: once the stored settings say [enabled: false] the component
    renders nothing, its listeners are removed and the button, the
    popup and the translating flag are cleared; this lasts until the
    settings change, and a change that enables the feature installs
    the listeners again with the component idle. *)
Theorem C9_disable_and_enable (h : Host) (s : state) (data : jsval) :
  reachable h s -> disables data ->
  let off := step h s (StorageChanged data) in
  detached off
  /\ (forall es data',
        forallb keeps_settings es = true -> enabled_in data' = true ->
        let idle := run h off es in
        let on := step h idle (StorageChanged data') in
        detached idle /\ listening on = true /\ phase_of on = Idle).
Proof.
  intros Hreach Hd off.
  assert (Hc : consistent off)
    by exact (step_consistent h s (StorageChanged data)
                (reachable_consistent h s Hreach)).
  assert (En : isTranslateEnabled off = false).
  { unfold isTranslateEnabled, off. rewrite step_storage.
    now apply disables_enabled_in. }
  split; [now apply disabled_detached|].
  intros es data' Hes Hon idle on.
  destruct (disabled_stays h es off Hc En Hes) as (Hci & Eni).
  fold idle in Hci, Eni.
  destruct (disabled_detached idle Hci Eni) as (Hr & Hl & Hb & Hv & Ht).
  split; [repeat split; assumption|].
  assert (Hco : consistent on)
    by exact (step_consistent h idle (StorageChanged data') Hci).
  assert (Eno : isTranslateEnabled on = true).
  { unfold isTranslateEnabled, on. now rewrite step_storage. }
  split.
  - destruct Hco as (_ & Hlo & _). now rewrite Hlo.
  - unfold on, step. unfold phase_of.
    match goal with
    | |- context [commit ?x] => commit_shape_of x keep K
    end.
    rewrite dispatch_storage. destruct idle; simpl in *.
    now rewrite Hb, Hv.
Qed.

Lemma C9_disable_and_enable_witness :
  popup_mounted translating = true
  /\ detached (step RefHost.host translating (StorageChanged switched_off))
  /\ phase_of (step RefHost.host
                 (run RefHost.host
                    (step RefHost.host translating
                       (StorageChanged switched_off))
                    [select_hello; ClickTranslate])
                 (StorageChanged switched_on)) = Idle.
Proof.
  split; [vm_compute; reflexivity|].
  destruct (C9_disable_and_enable RefHost.host translating switched_off)
    as (Hoff & Hon).
  - exact (reachable_run RefHost.host [select_hello; ClickTranslate] mounted
             (reachable_mounted RefHost.host)).
  - reflexivity.
  - split; [exact Hoff|].
    apply (Hon [select_hello; ClickTranslate] switched_on); reflexivity.
Defined.

End UIFacts.

(* ================================================================== *)
(** ** The direction of the translation *)

Module DirectionFacts.
Import RelaySpec.

Lemma regex_test_range (lo hi : Z) (t : jsstring) :
  regex_test (CharRange lo hi) t = true
  <-> exists c, In c t /\ lo <= c <= hi.
Proof.
  simpl. rewrite existsb_exists. split; intros (c & Hin & Hc); exists c;
    (split; [exact Hin|]).
  - apply andb_prop in Hc. lia.
  - apply andb_true_intro. lia.
Qed.

Lemma isChineseText_ideograph (t : jsstring) :
  UI.isChineseText t = true <-> has_ideograph t.
Proof. apply regex_test_range. Qed.

(** The prompt of the request is chosen by the regular expression of
    line 16 applied to the text. *)
Lemma system_content_chosen (body : jsval) (t : jsstring)
      (rq : Relay.http_request) :
  get body Relay.k_text = inr (JStr t) ->
  Relay.build_request body = inr rq ->
  Relay.system_content rq
  = if regex_test Relay.chinese_regex t then Relay.prompt_to_english
    else Relay.prompt_to_chinese.
Proof.
  intros Ht. unfold Relay.build_request. rewrite Ht.
  cbn [Js.bind].
  destruct (get body Relay.k_apiConfig) as [e|cfg]; cbn [Js.bind];
    [discriminate|].
  destruct (negb (truthy cfg)); [discriminate|].
  destruct (get cfg Relay.k_apiKey) as [e|key]; cbn [Js.bind];
    [discriminate|].
  destruct (negb (truthy key)); [discriminate|].
  destruct (get cfg Relay.k_apiUrl) as [e|u]; cbn [Js.bind];
    [discriminate|].
  cbn [ToString Js.bind Js.ret].
  destruct (get cfg Relay.k_model) as [e|m]; cbn [Js.bind];
    [discriminate|].
  destruct (ToString (or_else m (JStr Relay.default_model))) as [e|ms];
    cbn [Js.bind]; [discriminate|].
  destruct (ToString key) as [e|ks]; cbn [Js.bind]; [discriminate|].
  destruct (ToString (or_else u (JStr Relay.default_url))) as [e|us];
    cbn [Js.bind]; [discriminate|].
  now intros [= <-].
Qed.

(** C5: for every text, the prompt the relay sends and the labels the
    component shows name the same direction: to English when the text
    holds a code unit in U+4E00..U+9FA5, to Chinese when it holds
    none; the two tests are the same function of the text. *)
Theorem C5_direction_agrees (body : jsval) (t : jsstring)
        (rq : Relay.http_request) (s : UI.state) :
  get body Relay.k_text = inr (JStr t) ->
  Relay.build_request body = inr rq ->
  UI.selectedText s = t ->
  regex_test Relay.chinese_regex t = UI.isChineseText t
  /\ (has_ideograph t ->
      Relay.system_content rq = Relay.prompt_to_english
      /\ UI.buttonText s = UI.label_to_english
      /\ UI.arrow (UI.ResultPopup s) = UI.arrow_english
      /\ UI.detected (UI.ResultPopup s) = UI.detected_chinese)
  /\ (~ has_ideograph t ->
      Relay.system_content rq = Relay.prompt_to_chinese
      /\ UI.buttonText s = UI.label_to_chinese
      /\ UI.arrow (UI.ResultPopup s) = UI.arrow_chinese
      /\ UI.detected (UI.ResultPopup s) = UI.detected_other).
Proof.
  intros Ht Hb Hs.
  rewrite (system_content_chosen body t rq Ht Hb).
  change (regex_test Relay.chinese_regex t) with (UI.isChineseText t).
  unfold UI.buttonText, UI.ResultPopup. cbn [UI.arrow UI.detected].
  rewrite Hs.
  split; [reflexivity|]. split; intros H.
  - apply isChineseText_ideograph in H. rewrite H. repeat split.
  - destruct (UI.isChineseText t) eqn:E; [|repeat split].
    apply isChineseText_ideograph in E. contradiction.
Qed.

Lemma C5_direction_agrees_witness :
  Relay.system_content RelayExamples.sent_request = Relay.prompt_to_english
  /\ UI.buttonText (UI.run RefHost.host UI.mounted [UIExamples.select_chinese])
     = UI.label_to_english.
Proof.
  destruct (C5_direction_agrees
              (RelayExamples.request "你好" "sk-1") (utf16 "你好")
              RelayExamples.sent_request
              (UI.run RefHost.host UI.mounted [UIExamples.select_chinese]))
    as (_ & H & _); try (vm_compute; reflexivity).
  destruct H as (H1 & H2 & _).
  - exists 20320. split; [simpl; auto|unfold is_ideograph; lia].
  - split; [exact H1|exact H2].
Defined.

End DirectionFacts.

(* ================================================================== *)
(** ** More on the relay *)

Module RelayMore.
Import Relay RelaySpec RelayExamples RelayFacts.

(** *** The request *)

Lemma or_else_configured (o : option jsval) (default : jsstring) :
  string_or_absent o ->
  or_else (or_undefined o) (JStr default) = JStr (configured o default).
Proof.
  destruct o as [[ | | | |[|c s]| | ]|]; simpl; intros H;
    try contradiction; reflexivity.
Qed.

Lemma build_request_strings (body : jsval) (t key : jsstring)
      (cfg : list (jsstring * jsval)) :
  get body k_text = inr (JStr t) ->
  get body k_apiConfig = inr (JObj cfg) ->
  lookup cfg k_apiKey = Some (JStr key) -> key <> [] ->
  string_or_absent (lookup cfg k_apiUrl) ->
  string_or_absent (lookup cfg k_model) ->
  build_request body = inr (provider_request t key cfg).
Proof.
  intros Ht Hc Hk Hne Hu Hm.
  unfold build_request. rewrite Ht, Hc. cbn [Js.bind truthy negb].
  rewrite !get_object, Hk. cbn [Js.bind or_undefined].
  destruct key as [|c key']; [congruence|].
  cbn [truthy negb ToString Js.bind Js.ret].
  rewrite (or_else_configured _ default_url Hu).
  rewrite (or_else_configured _ default_model Hm).
  reflexivity.
Qed.

(** X1: a request with a non-empty string key is sent once, by POST,
    to the configured address or else the default one, with the key
    after [Bearer ], the configured model or else [deepseek-chat],
    the prompt chosen by the text, the text itself as the user
    message, temperature 0.3, the JSON-object format and at most 2048
    tokens. *)
Theorem request_composed
        (h : Host) (fetch : http_request -> fetch_outcome) (body : jsval)
        (t key : jsstring) (cfg : list (jsstring * jsval)) :
  get body k_text = inr (JStr t) ->
  get body k_apiConfig = inr (JObj cfg) ->
  lookup cfg k_apiKey = Some (JStr key) -> key <> [] ->
  string_or_absent (lookup cfg k_apiUrl) ->
  string_or_absent (lookup cfg k_model) ->
  fst (handler h fetch body) = [provider_request t key cfg].
Proof.
  intros Ht Hc Hk Hne Hu Hm.
  now rewrite (handler_after_fetch h fetch body _
                 (build_request_strings body t key cfg Ht Hc Hk Hne Hu Hm)).
Qed.

Lemma request_composed_witness :
  fst (handler RefHost.host (answers true "OK" [])
         (JObj [(k_text, JStr (utf16 "hello"));
                (k_apiConfig,
                 JObj [(k_apiKey, JStr (utf16 "sk-1"));
                       (k_apiUrl, JStr []);
                       (k_model, JStr (utf16 "deepseek-reasoner"))])]))
  = [ {| url := default_url;
         method := utf16 "POST";
         content_type := utf16 "application/json";
         authorization := utf16 "Bearer sk-1";
         model := JStr (utf16 "deepseek-reasoner");
         system_content := prompt_to_chinese;
         user_content := JStr (utf16 "hello");
         temperature := 3 # 10;
         response_format := utf16 "json_object";
         max_tokens := 2048 |} ].
Proof.
  refine (request_composed RefHost.host (answers true "OK" []) _
            (utf16 "hello") (utf16 "sk-1")
            [(k_apiKey, JStr (utf16 "sk-1")); (k_apiUrl, JStr []);
             (k_model, JStr (utf16 "deepseek-reasoner"))] _ _ _ _ _ _);
    try reflexivity; try exact I. discriminate.
Defined.


(** *** Failures *)

(** X2: when [fetch] itself rejects (no connection, a refused
    address), the one request has been sent and the answer is a
    failure carrying the rejection's message. *)
Theorem fetch_rejection_reported
        (h : Host) (fetch : http_request -> fetch_outcome) (body : jsval)
        (rq : http_request) (m : jsstring) :
  build_request body = inr rq -> fetch rq = Rejected m ->
  handler h fetch body
  = ([rq], {| success := false; result := None; error := Some (JStr m) |}).
Proof.
  intros Hb Hf. now rewrite (handler_after_fetch h fetch body rq Hb), Hf.
Qed.

Lemma fetch_rejection_reported_witness :
  handler RefHost.host (fun _ => Rejected (utf16 "Failed to fetch"))
          (request "hello" "sk-1")
  = ([provider_request (utf16 "hello") (utf16 "sk-1") []],
     {| success := false; result := None;
        error := Some (JStr (utf16 "Failed to fetch")) |}).
Proof.
  apply fetch_rejection_reported; reflexivity.
Defined.

(** X3: a response that is not 2xx and whose body is a JSON object
    fails with [API错误: ] followed by the provider's message when
    [error.message] is a non-empty string, and by the status text
    when the body has no [error], a [null] one, or one without a
    [message]. *)
Theorem provider_error_reported
        (h : Host) (fetch : http_request -> fetch_outcome) (body : jsval)
        (rq : http_request) (statusText text : jsstring)
        (ps : list (jsstring * jsval)) :
  build_request body = inr rq ->
  fetch rq = Response false statusText text ->
  JSON_parse h text = Some (JObj ps) ->
  let r := snd (handler h fetch body) in
  (forall e m,
      lookup ps k_error = Some (JObj e) ->
      lookup e k_message = Some (JStr m) -> m <> [] ->
      failed r (utf16 "API错误: " +++ m))
  /\ ((lookup ps k_error = None \/ lookup ps k_error = Some JNull
       \/ exists e, lookup ps k_error = Some (JObj e)
                    /\ lookup e k_message = None) ->
      failed r (utf16 "API错误: " +++ statusText)).
Proof.
  intros Hb Hf Hp r. subst r.
  rewrite (handler_after_fetch h fetch body rq Hb), Hf. cbn [snd].
  unfold failed. split.
  - intros e m He Hm Hne.
    rewrite (api_error_reported h statusText text ps m Hp); [reflexivity|].
    rewrite He. simpl. rewrite Hm. simpl.
    destruct m; [congruence|reflexivity].
  - intros H.
    rewrite (api_error_reported h statusText text ps statusText Hp);
      [reflexivity|].
    destruct H as [->|[->|(e & -> & Hm)]]; try reflexivity.
    simpl. now rewrite Hm.
Qed.

Lemma provider_error_reported_witness :
  failed (run (answers false "Unauthorized"
                 (json "{'error':{'message':'invalid key'}}"))
              (request "hello" "sk-bad"))
         (utf16 "API错误: invalid key")
  /\ failed (run (answers false "Too Many Requests" (json "{'id':7}"))
                 (request "hello" "sk-1"))
            (utf16 "API错误: Too Many Requests").
Proof.
  split.
  - refine (proj1 (provider_error_reported RefHost.host
                     (answers false "Unauthorized"
                        (json "{'error':{'message':'invalid key'}}"))
                     (request "hello" "sk-bad")
                     (provider_request (utf16 "hello") (utf16 "sk-bad") [])
                     (utf16 "Unauthorized")
                     (json "{'error':{'message':'invalid key'}}")
                     [(k_error, JObj [(k_message, JStr (utf16 "invalid key"))])]
                     _ _ _)
                  [(k_message, JStr (utf16 "invalid key"))]
                  (utf16 "invalid key") _ _ _);
      try reflexivity. discriminate.
  - refine (proj2 (provider_error_reported RefHost.host
                     (answers false "Too Many Requests" (json "{'id':7}"))
                     (request "hello" "sk-1")
                     (provider_request (utf16 "hello") (utf16 "sk-1") [])
                     (utf16 "Too Many Requests") (json "{'id':7}")
                     [(utf16 "id", JNum 7)] _ _ _) _);
      try reflexivity. left. reflexivity.
Defined.

(** X4: a response whose body is not JSON fails the request, whether
    its status is 2xx or not: the answer is the failure of
    [response.json()], and the body's text is never passed on as a
    translation. *)
Theorem body_not_json_fails
        (h : Host) (fetch : http_request -> fetch_outcome) (body : jsval)
        (rq : http_request) (ok : bool) (statusText text : jsstring) :
  build_request body = inr rq ->
  fetch rq = Response ok statusText text ->
  JSON_parse h text = None ->
  handler h fetch body
  = ([rq], {| success := false; result := None;
              error := Some (JStr (engine_message h (SyntaxError_json text))) |}).
Proof.
  intros Hb Hf Hp.
  rewrite (handler_after_fetch h fetch body rq Hb), Hf.
  unfold read_response, parse_json. rewrite Hp. now destruct ok.
Qed.

Lemma body_not_json_fails_witness :
  success (run (answers true "OK" (utf16 "Hello, world"))
               (request "你好" "sk-1")) = false.
Proof.
  change (success (snd (handler RefHost.host
                          (answers true "OK" (utf16 "Hello, world"))
                          (request "你好" "sk-1"))) = false).
  rewrite (body_not_json_fails RefHost.host
             (answers true "OK" (utf16 "Hello, world"))
             (request "你好" "sk-1") sent_request true (utf16 "OK")
             (utf16 "Hello, world")); reflexivity.
Defined.


(** *** Bodies of another shape *)

Lemma handler_on_data
      (h : Host) (fetch : http_request -> fetch_outcome) (body : jsval)
      (rq : http_request) (statusText text : jsstring) (data : jsval) :
  build_request body = inr rq ->
  fetch rq = Response true statusText text ->
  JSON_parse h text = Some data ->
  snd (handler h fetch body) = send h (extract h data).
Proof.
  intros Hb Hf Hp.
  rewrite (handler_after_fetch h fetch body rq Hb), Hf. cbn [snd].
  unfold read_response, parse_json. now rewrite Hp.
Qed.

Lemma extract_without_content (h : Host) (data : jsval) :
  without_content data -> extract h data = inr (JStr msg_no_result).
Proof.
  destruct data as [ | | | | | |ps]; try contradiction.
  unfold without_content, extract, main_path, has_content, fallback,
    get_path.
  cbn [truthy negb Js.bind]. rewrite !get_object.
  destruct (lookup ps k_choices)
    as [[ | | | | |[|[ | | | | | |choice] rest]|]|];
    try contradiction; try reflexivity.
  cbn [or_undefined Js.bind truthy negb get eqb]. simpl.
  destruct (lookup choice k_message) as [[ | | | | | |message]|];
    try contradiction; try reflexivity.
  simpl.
  destruct (lookup message k_content) as [[ | | | |[|c s]| |]|];
    try contradiction; reflexivity.
Qed.

(** X5: a 2xx response whose body is a JSON object with no
    [choices], an empty [choices], or a first choice without a
    [message] or with missing, [null] or empty [content], is answered
    with [success = true] and the fixed text [获取翻译结果失败]. *)
Theorem no_content_fixed_text
        (h : Host) (fetch : http_request -> fetch_outcome) (body : jsval)
        (rq : http_request) (statusText text : jsstring) (data : jsval) :
  build_request body = inr rq ->
  fetch rq = Response true statusText text ->
  JSON_parse h text = Some data ->
  without_content data ->
  succeeded (snd (handler h fetch body)) (JStr (utf16 "获取翻译结果失败")).
Proof.
  intros Hb Hf Hp Hw.
  rewrite (handler_on_data h fetch body rq statusText text data Hb Hf Hp).
  now rewrite (extract_without_content h data Hw).
Qed.

Lemma no_content_fixed_text_witness :
  succeeded (run (answers true "OK"
                    (json "{'choices':[{'message':{'content':''}}]}"))
                 (request "hello" "sk-1"))
            (JStr (utf16 "获取翻译结果失败")).
Proof.
  apply (no_content_fixed_text RefHost.host
           (answers true "OK" (json "{'choices':[{'message':{'content':''}}]}"))
           (request "hello" "sk-1")
           (provider_request (utf16 "hello") (utf16 "sk-1") [])
           (utf16 "OK") (json "{'choices':[{'message':{'content':''}}]}")
           (JObj [(k_choices,
                   JArr [JObj [(k_message, JObj [(k_content, JStr [])])]])]));
    solve [reflexivity | exact I].
Defined.

Lemma extract_unconverted (h : Host) (data v : jsval) :
  first_choice_value data = Some v ->
  truthy v = true -> is_string v = false ->
  extract h data = inr v.
Proof.
  destruct data as [ | | | | | |ps]; try discriminate. simpl.
  destruct (lookup ps k_choices)
    as [[ | | | | |[|[ | | | | | |choice] rest]|]|] eqn:Hc;
    try discriminate.
  destruct (lookup choice k_message) as [[ | | | | | |message]|] eqn:Hm;
    try discriminate.
  intros Hv Ht Hs.
  unfold extract, main_path, has_content, fallback, get_path.
  cbn [truthy negb Js.bind]. rewrite !get_object, Hc.
  cbn [or_undefined Js.bind truthy negb get eqb]. simpl.
  rewrite Hm. simpl. rewrite Hv. simpl. rewrite Ht. simpl.
  destruct v; try discriminate; unfold or_else; simpl in Ht |- *;
    rewrite ?Ht; reflexivity.
Qed.

(** X6: when the first choice's [content] is a truthy value that is
    not a string (a number, [true], an array, an object), [trim]
    fails on it, the [catch] takes over, and the result is that value
    as it is: nothing converts it to text. *)
Theorem content_passed_unconverted
        (h : Host) (fetch : http_request -> fetch_outcome) (body : jsval)
        (rq : http_request) (statusText text : jsstring) (data v : jsval) :
  build_request body = inr rq ->
  fetch rq = Response true statusText text ->
  JSON_parse h text = Some data ->
  first_choice_value data = Some v ->
  truthy v = true -> is_string v = false ->
  succeeded (snd (handler h fetch body)) v.
Proof.
  intros Hb Hf Hp Hv Ht Hs.
  rewrite (handler_on_data h fetch body rq statusText text data Hb Hf Hp).
  now rewrite (extract_unconverted h data v Hv Ht Hs).
Qed.

Lemma content_passed_unconverted_witness :
  succeeded (run (answers true "OK"
                    (json "{'choices':[{'message':{'content':['a',1]}}]}"))
                 (request "hello" "sk-1"))
            (JArr [JStr (utf16 "a"); JNum 1]).
Proof.
  apply (content_passed_unconverted RefHost.host
           (answers true "OK"
              (json "{'choices':[{'message':{'content':['a',1]}}]}"))
           (request "hello" "sk-1")
           (provider_request (utf16 "hello") (utf16 "sk-1") [])
           (utf16 "OK")
           (json "{'choices':[{'message':{'content':['a',1]}}]}")
           (JObj [(k_choices,
                   JArr [JObj [(k_message,
                                JObj [(k_content,
                                       JArr [JStr (utf16 "a"); JNum 1])])]])]));
    reflexivity.
Defined.


(** *** Shapes of the answer *)

Lemma missing_key_rejected (body : jsval) :
  apiKey_missing body = true ->
  build_request body = inl (Error msg_missing_key).
Proof.
  destruct body as [ | | | | | |ps]; try discriminate. simpl.
  unfold build_request. rewrite !get_object. cbn [Js.bind].
  destruct (or_undefined (lookup ps k_apiConfig)) as [ | | | |[|]| |cfg];
    try discriminate; try reflexivity.
  cbn [truthy negb]. rewrite get_object. cbn [Js.bind].
  destruct (or_undefined (lookup cfg k_apiKey)) as [ | | | |[|]| |];
    try discriminate; reflexivity.
Qed.

Lemma handler_answer (h : Host) (fetch : http_request -> fetch_outcome)
      (body : jsval) :
  let r := snd (handler h fetch body) in
  (exists m, r = {| success := false; result := None;
                    error := Some (JStr m) |})
  \/ (exists v, presentable v
                /\ r = {| success := true; result := Some v;
                          error := None |}).
Proof.
  unfold handler, translate.
  destruct (build_request body) as [e|rq]; simpl; [left; eauto|].
  destruct (read_response h (fetch rq)) as [e|v] eqn:Hr; simpl;
    [left; eauto|].
  right. exists v. split; [|reflexivity].
  exact (read_response_presentable h (fetch rq) v Hr).
Qed.

End RelayMore.

(* ================================================================== *)
(** ** More on the component *)

Module UIMore.
Import UI UISpec UIExamples UIFacts.

(** *** What is never on the page together *)

Lemma dispatch_one_surface (h : Host) (e : event) (s : state) :
  one_surface s -> one_surface (dispatch h e s).
Proof.
  unfold one_surface.
  destruct e; unfold dispatch, copy_mounted, result_mounted, render;
    run_handler s; intros (H1 & H2); subst;
    case_conditions; simpl in *; split; intros; try congruence; auto;
    try discriminate.
Qed.

Lemma commit_one_surface (s : state) :
  one_surface s -> one_surface (commit s).
Proof.
  unfold one_surface. commit_shape_of s keep K.
  destruct s, keep; simpl; intros (H1 & H2); subst;
    rewrite ?andb_true_r, ?andb_false_r; split; intros; auto.
Qed.

Lemma reachable_one_surface (h : Host) (s : state) :
  reachable h s -> one_surface s.
Proof.
  induction 1 as [|s e _ IH].
  - split; [reflexivity|discriminate].
  - now apply commit_one_surface, dispatch_one_surface.
Qed.

(** X7: in every instance the component can reach, the popup is open
    exactly while [isTranslating] is set, and what is rendered never
    holds the button and the popup together. *)
Theorem button_or_popup (h : Host) (s : state) :
  reachable h s ->
  isResultVisible s = isTranslating s
  /\ (forall v, render s = Some v -> button v = None \/ popup v = None).
Proof.
  intros Hr. destruct (reachable_one_surface h s Hr) as (H1 & H2).
  split; [exact H1|].
  unfold render. intros v.
  destruct (negb (isTranslateEnabled s)); [discriminate|].
  destruct (isButtonVisible s) eqn:Hb.
  - rewrite (H2 eq_refl). simpl. intros [= <-]. now right.
  - destruct (isResultVisible s); simpl; [|discriminate].
    intros [= <-]. now left.
Qed.

Lemma button_or_popup_witness :
  isResultVisible translating = isTranslating translating
  /\ (forall v, render translating = Some v ->
                button v = None \/ popup v = None).
Proof.
  apply (button_or_popup RefHost.host translating).
  exact (reachable_run RefHost.host [select_hello; ClickTranslate] mounted
           (reachable_mounted RefHost.host)).
Defined.


(** *** The listeners *)

(** X8: in every instance the component can reach, the two document
    listeners are installed exactly while the feature is enabled, and
    the processing flag of [handleClickOutside] is set exactly while
    one timer that resets it is pending. *)
Theorem listeners_follow_setting (h : Host) (s : state) :
  reachable h s ->
  listening s = isTranslateEnabled s
  /\ (isOutsideClickProcessing s = true -> release_timers s = 1%nat)
  /\ (isOutsideClickProcessing s = false -> release_timers s = 0%nat).
Proof.
  intros Hr. destruct (reachable_consistent h s Hr) as (_ & Hl & _ & Ht).
  split; [exact Hl|]. split; intros Hf; now rewrite Hf in Ht.
Qed.

Lemma listeners_follow_setting_witness :
  listening (step RefHost.host button_shown click_away) = true
  /\ release_timers (step RefHost.host button_shown click_away) = 1%nat.
Proof.
  destruct (listeners_follow_setting RefHost.host
              (step RefHost.host button_shown click_away))
    as (Hl & Ht & _).
  - exact (reachable_run RefHost.host [select_hello; click_away] mounted
             (reachable_mounted RefHost.host)).
  - split; [rewrite Hl; reflexivity|apply Ht; reflexivity].
Defined.

(** *** Selecting text *)

Lemma step_enabled (h : Host) (e : event) (s : state) :
  isTranslateEnabled (dispatch h e s) = true ->
  exists li de, step h s e = set_listening li (set_deps de (dispatch h e s)).
Proof.
  intros En. unfold step. commit_shape_of (dispatch h e s) keep K.
  rewrite (K En), !andb_true_r. exists li', de'.
  now destruct (dispatch h e s).
Qed.

(** X9: a mouseup that ends a selection, outside the component and
    while no translation is open, shows the button 5 pixels below the
    selection's rectangle and keeps the selected text with the white
    space around it removed; a mouseup with nothing but white space
    selected hides the button and keeps the text and the position. *)
Theorem selection_shows_button (h : Host) (s : state) (sel : jsstring)
        (rect_left rect_bottom : Z) :
  reachable h s ->
  isTranslateEnabled s = true -> isTranslating s = false ->
  let s' := step h s (Mouseup Elsewhere sel rect_left rect_bottom) in
  (trim sel <> [] ->
   selectedText s' = trim sel
   /\ position s' = {| x := rect_left; y := rect_bottom + 5 |}
   /\ render s' = Some {| button := Some (buttonText s'); popup := None |})
  /\ (trim sel = [] ->
      isButtonVisible s' = false /\ selectedText s' = selectedText s
      /\ position s' = position s).
Proof.
  intros Hr En Ht s'.
  destruct (reachable_consistent h s Hr) as (_ & Hl & _).
  destruct (reachable_one_surface h s Hr) as (Hv & _).
  rewrite Ht in Hv. rewrite En in Hl.
  assert (Hd : dispatch h (Mouseup Elsewhere sel rect_left rect_bottom) s
               = if negb (is_empty (trim sel))
                 then set_isButtonVisible true
                        (set_selectedText (trim sel)
                           (set_position
                              {| x := rect_left; y := rect_bottom + 5 |} s))
                 else set_isButtonVisible false s).
  { unfold dispatch, handleSelection. rewrite Hl, En, Ht.
    now rewrite !andb_false_r. }
  destruct (step_enabled h (Mouseup Elsewhere sel rect_left rect_bottom) s)
    as (li' & de' & E).
  { rewrite Hd. destruct (negb (is_empty (trim sel))); now destruct s. }
  subst s'. rewrite E, Hd. clear E Hd. split; intros Hs.
  - destruct (trim sel) as [|c r] eqn:Hsel; [congruence|]. simpl.
    unfold render, isTranslateEnabled in *.
    destruct s; simpl in *. subst. now rewrite En.
  - rewrite Hs. simpl. now destruct s.
Qed.

Lemma selection_shows_button_witness :
  selectedText (step RefHost.host mounted select_chinese) = utf16 "你好"
  /\ position (step RefHost.host mounted select_chinese)
     = {| x := 10; y := 25 |}
  /\ render (step RefHost.host mounted select_chinese)
     = Some {| button := Some (utf16 "翻译为英文"); popup := None |}.
Proof.
  refine (proj1 (selection_shows_button RefHost.host mounted
                   (utf16 " 你好 ") 10 20 _ _ _) _).
  - exact (reachable_mounted RefHost.host).
  - reflexivity.
  - reflexivity.
  - discriminate.
Defined.

(** X10: while a translation is open, and on the button or the popup
    themselves, a mouseup changes nothing: neither the captured text
    nor the position follows the selection. *)
Theorem mouseup_ignored (h : Host) (s : state) (t : target)
        (sel : jsstring) (rect_left rect_bottom : Z) :
  reachable h s ->
  isTranslating s = true
  \/ (t = OnButton /\ isButtonVisible s = true)
  \/ (t = OnPopup /\ isResultVisible s = true) ->
  step h s (Mouseup t sel rect_left rect_bottom) = s.
Proof.
  intros Hr Hc. pose proof (reachable_consistent h s Hr) as (Hd & _).
  unfold step.
  assert (E : dispatch h (Mouseup t sel rect_left rect_bottom) s = s).
  { unfold dispatch, handleSelection.
    rewrite button_mounted_eq, popup_mounted_eq.
    destruct (listening s); [|reflexivity].
    destruct (isTranslateEnabled s); [|reflexivity].
    destruct Hc as [->|[(-> & ->)|(-> & ->)]]; simpl; try reflexivity.
    - now destruct (isTranslating s).
    - destruct (isTranslating s); [reflexivity|].
      now rewrite orb_true_r. }
  rewrite E. now apply commit_stable.
Qed.

Lemma mouseup_ignored_witness :
  step RefHost.host translating (Mouseup Elsewhere (utf16 "other") 5 5)
  = translating.
Proof.
  apply mouseup_ignored.
  - exact (reachable_run RefHost.host [select_hello; ClickTranslate] mounted
             (reachable_mounted RefHost.host)).
  - left. reflexivity.
Defined.


(** *** Asking for a translation *)

Lemma translate_queued (h : Host) (s : state) :
  button_mounted s = true ->
  requests (step h s ClickTranslate) = requests s ++ [translation_request s].
Proof.
  intros Hb. unfold step.
  match goal with
  | |- context [commit ?x] => commit_shape_of x keep K
  end.
  unfold dispatch. rewrite Hb. now destruct s.
Qed.

(** X11: pressing the button replaces it by the popup in its loading
    state, clears the error and the copied mark, and hands exactly
    one request to the relay: the captured text with the settings as
    they are at that moment. *)
Theorem translate_sends_one_request (h : Host) (s : state) :
  button_mounted s = true ->
  let s' := step h s ClickTranslate in
  requests s' = requests s ++ [translation_request s]
  /\ isLoading s' = true /\ error s' = None /\ copied s' = false
  /\ selectedText s' = selectedText s
  /\ phase_of s' = Translating
  /\ render s'
     = Some {| button := None;
               popup := Some {| detected := detected (ResultPopup s);
                                arrow := arrow (ResultPopup s);
                                body := Loading |} |}.
Proof.
  intros Hb s'. pose proof Hb as Hb'. rewrite button_mounted_eq in Hb'.
  apply andb_prop in Hb'. destruct Hb' as (En & Hv).
  destruct (step_enabled h ClickTranslate s) as (li' & de' & E).
  { unfold dispatch. rewrite Hb. now destruct s. }
  subst s'. rewrite E. unfold dispatch. rewrite Hb.
  unfold translation_request, phase_of, render, ResultPopup,
    isTranslateEnabled in *.
  destruct s; simpl in *. rewrite En. repeat split.
Qed.

Lemma translate_sends_one_request_witness :
  requests (step RefHost.host button_shown ClickTranslate)
  = [JObj [(Relay.k_text, JStr (utf16 "hello"));
           (Relay.k_apiConfig, JUndefined)]]
  /\ phase_of (step RefHost.host button_shown ClickTranslate) = Translating.
Proof.
  destruct (translate_sends_one_request RefHost.host button_shown)
    as (H1 & _ & _ & _ & _ & H2 & _).
  - reflexivity.
  - split; [exact H1|exact H2].
Defined.

(** *** The answer *)

(** What a settled call leaves in the cells, whatever the commit
    does to the rest. *)
Lemma settle_cells (h : Host) (s : state) (i : nat) (b : jsval)
      (r : Js.M Relay.response) :
  nth_error (requests s) i = Some b ->
  let s' := step h s (RelaySettles i r) in
  let t := translateText_resume h r s in
  translatedText s' = translatedText t /\ error s' = error t
  /\ isLoading s' = false
  /\ requests s' = remove_nth i (requests s).
Proof.
  intros Hn s' t. subst s' t. unfold step, dispatch. rewrite Hn.
  match goal with
  | |- context [commit ?x] => commit_shape_of x keep K
  end.
  unfold translateText_resume. destruct s; simpl.
  destruct (Js.bind r _); repeat split.
Qed.

(** X12: when a call to the relay settles, the loading state ends and
    the call is no longer pending.  A failure with the message [m]
    is shown as [翻译失败: m]; a success with a non-empty result
    stores the result and leaves the error alone; a success with an
    empty result, like a failure with an empty message, is shown as
    [翻译失败: 未能获取到翻译结果]. *)
Theorem answer_shown (h : Host) (s : state) (i : nat) (b : jsval) :
  nth_error (requests s) i = Some b ->
  (forall r,
      isLoading (step h s (RelaySettles i r)) = false
      /\ requests (step h s (RelaySettles i r))
         = remove_nth i (requests s))
  /\ (forall m, m <> [] ->
      let s' := step h s (RelaySettles i (inr (failure m))) in
      error s' = Some (utf16 "翻译失败: " +++ m)
      /\ translatedText s' = translatedText s)
  /\ (forall v, truthy v = true ->
      let s' := step h s (RelaySettles i (inr (success_with v))) in
      translatedText s' = v /\ error s' = error s)
  /\ (forall r, r = failure [] \/ r = success_with (JStr []) ->
      let s' := step h s (RelaySettles i (inr r)) in
      error s' = Some (utf16 "翻译失败: 未能获取到翻译结果")
      /\ translatedText s' = translatedText s).
Proof.
  intros Hn. repeat split.
  - apply (settle_cells h s i b r Hn).
  - apply (settle_cells h s i b r Hn).
  - destruct (settle_cells h s i b (inr (failure m)) Hn) as (_ & -> & _).
    unfold translateText_resume, failure. simpl.
    destruct m; [congruence|]. now destruct s.
  - destruct (settle_cells h s i b (inr (failure m)) Hn) as (-> & _).
    unfold translateText_resume, failure. simpl.
    destruct m; [congruence|]. now destruct s.
  - destruct (settle_cells h s i b (inr (success_with v)) Hn) as (-> & _).
    unfold translateText_resume, success_with. simpl. rewrite H.
    now destruct s.
  - destruct (settle_cells h s i b (inr (success_with v)) Hn)
      as (_ & -> & _).
    unfold translateText_resume, success_with. simpl. rewrite H.
    now destruct s.
  - destruct (settle_cells h s i b (inr r) Hn) as (_ & -> & _).
    destruct H as [->| ->]; now destruct s.
  - destruct (settle_cells h s i b (inr r) Hn) as (-> & _).
    destruct H as [->| ->]; now destruct s.
Qed.

Lemma answer_shown_witness :
  error (step RefHost.host translating
           (RelaySettles 0 (inr (failure (utf16 "API错误: invalid key")))))
  = Some (utf16 "翻译失败: API错误: invalid key").
Proof.
  destruct (answer_shown RefHost.host translating 0
              (JObj [(Relay.k_text, JStr (utf16 "hello"));
                     (Relay.k_apiConfig, JUndefined)]))
    as (_ & H & _).
  - reflexivity.
  - apply (H (utf16 "API错误: invalid key")). discriminate.
Defined.


(** *** Copying *)

Lemma copy_mounted_enabled (s : state) :
  copy_mounted s = true -> isTranslateEnabled s = true.
Proof.
  unfold copy_mounted, render.
  destruct (isTranslateEnabled s); [reflexivity|discriminate].
Qed.

Lemma dispatch_mark_expires (h : Host) (e : event) (s : state) :
  mark_expires s -> mark_expires (dispatch h e s).
Proof.
  unfold mark_expires.
  destruct e; unfold dispatch, copy_mounted, result_mounted, render;
    run_handler s; intros H; case_conditions; simpl in *; intros;
    try discriminate; auto; try lia;
    try (subst; specialize (H eq_refl); lia).
Qed.

Lemma commit_mark_expires (s : state) :
  mark_expires s -> mark_expires (commit s).
Proof.
  unfold mark_expires. commit_shape_of s keep K. now destruct s.
Qed.

(** X15: whenever the [已复制] mark is shown, a timer that will
    remove it is pending: the mark cannot stay for good. *)
Theorem copied_mark_expires (h : Host) (s : state) :
  reachable h s -> copied s = true -> (0 < copy_timers s)%nat.
Proof.
  induction 1 as [|s e _ IH].
  - discriminate.
  - now apply commit_mark_expires, dispatch_mark_expires.
Qed.


Lemma copied_mark_expires_witness :
  copied just_copied = true /\ (0 < copy_timers just_copied)%nat.
Proof.
  split; [reflexivity|].
  apply (copied_mark_expires RefHost.host just_copied).
  - exact (reachable_run RefHost.host
             [select_hello; ClickTranslate;
              RelaySettles 0 (inr (reply "你好"));
              ClickCopy; ClipboardSettles true]
             mounted (reachable_mounted RefHost.host)).
  - reflexivity.
Defined.

Lemma commit_copy_cells (s : state) :
  copied (commit s) = copied s
  /\ translatedText (commit s) = translatedText s
  /\ clipboard_writes (commit s) = clipboard_writes s
  /\ copy_timers (commit s) = copy_timers s
  /\ requests (commit s) = requests s
  /\ frames (commit s) = frames s.
Proof. commit_shape_of s keep K. now destruct s. Qed.

Lemma clipboard_settles (h : Host) (a : state) (n : nat) (w : bool) :
  clipboard_writes a = S n ->
  let d := step h a (ClipboardSettles w) in
  copied d = (if w then true else copied a)
  /\ translatedText d = translatedText a
  /\ copy_timers d = (if w then S (copy_timers a) else copy_timers a).
Proof.
  intros Hw. cbv zeta. unfold step.
  destruct (commit_copy_cells (dispatch h (ClipboardSettles w) a))
    as (-> & -> & _ & -> & _).
  unfold dispatch. rewrite Hw. destruct a, w; repeat split.
Qed.

Lemma copy_timer_fires (h : Host) (a : state) (n : nat) :
  copy_timers a = S n -> copied (step h a CopyTimerFires) = false.
Proof.
  intros Hn. unfold step.
  destruct (commit_copy_cells (dispatch h CopyTimerFires a)) as (-> & _).
  unfold dispatch. rewrite Hn. now destruct a.
Qed.

(** X16: pressing the copy control asks the clipboard for one write
    and changes nothing else; when the write succeeds the mark is
    shown and goes away when its timer fires; when the write fails
    no mark is shown.  The translation is the same throughout. *)
Theorem copy_round (h : Host) (s : state) :
  copy_mounted s = true ->
  let asked := step h s ClickCopy in
  (clipboard_writes asked = S (clipboard_writes s)
   /\ copied asked = copied s /\ translatedText asked = translatedText s)
  /\ (let done := step h asked (ClipboardSettles true) in
      copied done = true /\ translatedText done = translatedText s
      /\ copied (step h done CopyTimerFires) = false)
  /\ copied (step h asked (ClipboardSettles false)) = copied s.
Proof.
  intros Hc asked. destruct (copy_mounted_result s Hc) as (_ & Ht).
  assert (Ha : clipboard_writes asked = S (clipboard_writes s)
               /\ copied asked = copied s
               /\ translatedText asked = translatedText s).
  { unfold asked, step.
    destruct (commit_copy_cells (dispatch h ClickCopy s))
      as (-> & -> & -> & _).
    unfold dispatch, copyTranslatedText. rewrite Hc, Ht.
    now destruct s. }
  destruct Ha as (Hw & Hk & Hx).
  split; [auto|].
  destruct (clipboard_settles h asked _ true Hw) as (D1 & D2 & D3).
  destruct (clipboard_settles h asked _ false Hw) as (F1 & _).
  cbv zeta. repeat split.
  - exact D1.
  - congruence.
  - exact (copy_timer_fires h _ _ D3).
  - congruence.
Qed.

Lemma copy_round_witness :
  copied (run RefHost.host translated [ClickCopy; ClipboardSettles true])
  = true
  /\ copied (run RefHost.host translated
               [ClickCopy; ClipboardSettles true; CopyTimerFires]) = false.
Proof.
  destruct (copy_round RefHost.host translated) as (_ & (H1 & _ & H2) & _).
  - reflexivity.
  - split; [exact H1|exact H2].
Defined.


(** *** Pending calls *)

Lemma remove_nth_beyond {A : Type} (l : list A) (i : nat) :
  nth_error l i = None -> remove_nth i l = l.
Proof.
  revert i. induction l as [|a l IH]; intros i; [now destruct i|].
  destruct i as [|i]; simpl; [discriminate|].
  intros H. now rewrite (IH i H).
Qed.

(** X17: a call to the relay is started by the button and by nothing
    else, and it stays pending until its own answer arrives: closing
    the popup, a new selection, a change of the settings or any other
    event leaves the pending calls as they are. *)
Theorem calls_start_and_end (h : Host) (s : state) (e : event) :
  requests (step h s e)
  = match e with
    | ClickTranslate =>
        if button_mounted s then requests s ++ [translation_request s]
        else requests s
    | RelaySettles i _ => remove_nth i (requests s)
    | _ => requests s
    end.
Proof.
  unfold step.
  destruct (commit_copy_cells (dispatch h e s)) as (_ & _ & _ & _ & -> & _).
  destruct e; unfold dispatch, copy_mounted, result_mounted;
    try (run_handler s; case_conditions; reflexivity).
  destruct (nth_error (requests s) i) eqn:Hn.
  - unfold translateText_resume. destruct s; simpl.
    now destruct (Js.bind r _).
  - now rewrite remove_nth_beyond.
Qed.

(** *** Hiding the button *)

(** X18: with the popup closed and nothing selected, a press outside
    the button schedules the hiding of the button, which is gone
    after the next animation frame; a press on the button itself, a
    press while text is selected and a press while the popup is open
    schedule nothing. *)
Theorem outside_press (h : Host) (s : state) (t : target)
        (sel : jsstring) :
  reachable h s ->
  isTranslateEnabled s = true -> isOutsideClickProcessing s = false ->
  let s' := step h s (Mousedown t sel) in
  ((t <> OnButton \/ isButtonVisible s = false) ->
   trim sel = [] -> isResultVisible s = false ->
   frames s' = S (frames s)
   /\ isButtonVisible (step h s' FrameFires) = false)
  /\ ((t = OnButton /\ isButtonVisible s = true) \/ trim sel <> []
      \/ isResultVisible s = true ->
      frames s' = frames s /\ isButtonVisible s' = isButtonVisible s).
Proof.
  intros Hr En Hf s'.
  pose proof (reachable_consistent h s Hr) as Hc.
  destruct (reachable_one_surface h s Hr) as (Hv & _).
  assert (Hl : listening s = true)
    by (destruct Hc as (_ & Hl & _); congruence).
  assert (Hs : s' = dispatch h (Mousedown t sel) s)
    by exact (mousedown_step h s t sel Hc).
  assert (Hd : dispatch h (Mousedown t sel) s
               = let s1 := set_isOutsideClickProcessing true s in
                 let s2 :=
                   if isButtonVisible s && is_button t then s1
                   else if is_empty (trim sel) && negb (isResultVisible s)
                        then set_frames (S (frames s)) s1
                        else s1 in
                 set_release_timers (S (release_timers s)) s2).
  { unfold dispatch, handleClickOutside. rewrite Hl, En, Hf.
    rewrite button_mounted_eq. cbv zeta. unfold isTranslateEnabled in *.
    open_state s. simpl in *. subst. rewrite En. simpl.
    destruct (bv && is_button t); [reflexivity|].
    destruct (is_empty (trim sel)); [|reflexivity].
    match goal with
    | |- context [negb ?b] => destruct b
    end; reflexivity. }
  rewrite Hd in Hs. cbv zeta in Hs. clear Hd. split.
  - intros Ht Hsel Hrv. rewrite Hsel, Hrv in Hs. simpl in Hs.
    assert (Hb : isButtonVisible s && is_button t = false).
    { destruct Ht as [Ht| ->]; [|reflexivity].
      destruct t; try congruence; simpl; apply andb_false_r. }
    rewrite Hb in Hs.
    assert (Hfr : frames s' = S (frames s)) by (rewrite Hs; now destruct s).
    split; [exact Hfr|].
    unfold step.
    match goal with
    | |- context [commit ?x] => commit_shape_of x keep K
    end.
    unfold dispatch. rewrite Hfr.
    now destruct s'.
  - intros [(-> & Hb)|[Hsel|Hrv]].
    + rewrite Hb in Hs. simpl in Hs. rewrite Hs. now destruct s.
    + destruct (trim sel) as [|c r] eqn:E; [congruence|]. simpl in Hs.
      rewrite Hs. destruct (isButtonVisible s && is_button t); now destruct s.
    + rewrite Hrv, andb_false_r in Hs.
      rewrite Hs. destruct (isButtonVisible s && is_button t); now destruct s.
Qed.

Lemma outside_press_witness :
  isButtonVisible button_shown = true
  /\ isButtonVisible (run RefHost.host button_shown [click_away; FrameFires])
     = false.
Proof.
  split; [reflexivity|].
  refine (proj2 (proj1 (outside_press RefHost.host button_shown Elsewhere []
                          _ _ _) _ _ _)); try reflexivity.
  - exact (@reachable_step RefHost.host mounted select_hello
             (reachable_mounted RefHost.host)).
  - left. discriminate.
Defined.


(** *** The states of the component *)

Lemma phase_of_commit (s : state) :
  exists keep : bool,
    phase_of (commit s) = (if keep then phase_of s else Idle)
    /\ (isTranslateEnabled s = true -> keep = true).
Proof.
  commit_shape_of s keep K. exists keep. split; [|exact K].
  unfold phase_of. destruct s, keep; simpl;
    rewrite ?andb_true_r, ?andb_false_r; reflexivity.
Qed.

(** Splits on the innermost conditions first. *)
Ltac case_innermost :=
  repeat (match goal with
          | |- context [match Js.bind ?r ?k with _ => _ end] =>
              destruct (Js.bind r k)
          | |- context [match ?x with _ => _ end] =>
              lazymatch x with
              | context [match _ with _ => _ end] => fail
              | _ => destruct x eqn:?
              end
          end; simpl in * ).

(** The handlers alone, before the effect has its say. *)
Lemma dispatch_allowed (h : Host) (e : event) (s : state) :
  one_surface s -> listening s = isTranslateEnabled s ->
  allowed (phase_of s) e (phase_of (dispatch h e s)) = true.
Proof.
  intros (Hv & Hb) Hl.
  destruct e; unfold dispatch, copy_mounted, result_mounted, render;
    run_handler s; unfold phase_of, isTranslateEnabled in *;
    simpl in *; subst;
    case_innermost;
    repeat match goal with
      | H : _ && _ = true |- _ => apply andb_prop in H; destruct H; subst
      end;
    repeat match goal with
      | H : true = true -> _ |- _ => specialize (H eq_refl)
      end;
    try reflexivity; try discriminate.
Qed.

Lemma allowed_switch_off (p : phase) (data : jsval) :
  allowed p (StorageChanged data) Idle = true.
Proof. now destruct p. Qed.

(** X24: the component moves between [Idle], [ButtonVisible],
    [Translating] and [ResultVisible] only along the arrows of the
    state machine: the button appears by a mouseup; it goes away by
    a mouseup, an animation frame or a change of the settings; the
    popup opens, loading, by the button alone; loading ends by the
    relay's answer; and the popup goes away by its close control or
    a change of the settings. *)
Theorem phase_follows_arrows (h : Host) (s : state) (e : event) :
  reachable h s ->
  allowed (phase_of s) e (phase_of (step h s e)) = true.
Proof.
  intros Hr.
  destruct (reachable_consistent h s Hr) as (_ & Hl & Hh & _).
  pose proof (reachable_one_surface h s Hr) as Ho.
  pose proof (dispatch_allowed h e s Ho Hl) as Ha.
  unfold step.
  destruct (phase_of_commit (dispatch h e s)) as (keep & -> & K).
  destruct keep; [exact Ha|].
  destruct (is_storage_change e) eqn:Hs.
  - destruct e; try discriminate. apply allowed_switch_off.
  - destruct (dispatch_frame h e s) as (_ & _ & Hc).
    destruct (isTranslateEnabled s) eqn:En.
    + unfold isTranslateEnabled in K, En. rewrite (Hc Hs), En in K.
      specialize (K eq_refl). discriminate.
    + destruct (Hh eq_refl) as (Hb & Hv & _).
      unfold phase_of. now rewrite Hb, Hv.
Qed.

Lemma phase_follows_arrows_witness :
  phase_of translating = Translating
  /\ phase_of (step RefHost.host translating
                 (RelaySettles 0 (inr (reply "你好")))) = ResultVisible
  /\ allowed Translating (RelaySettles 0 (inr (reply "你好"))) ResultVisible
     = true.
Proof.
  split; [reflexivity|]. split; [reflexivity|].
  apply (phase_follows_arrows RefHost.host translating
           (RelaySettles 0 (inr (reply "你好")))).
  exact (reachable_run RefHost.host [select_hello; ClickTranslate] mounted
           (reachable_mounted RefHost.host)).
Defined.

End UIMore.

(* ================================================================== *)
(** ** The component and the relay together *)

Module EndToEnd.
Import UISpec UIExamples UIFacts UIMore.

(** X13: with settings that hold no key -- none saved yet, or a key
    left empty -- pressing the button sends nothing to the provider,
    and when the relay's answer arrives the popup stops loading and
    shows [翻译失败: 缺少API密钥配置]. *)
Theorem missing_key_shown
        (h : Host) (fetch : Relay.http_request -> Relay.fetch_outcome)
        (s : UI.state) :
  UI.button_mounted s = true ->
  RelaySpec.apiKey_missing (translation_request s) = true ->
  let asked := UI.step h s UI.ClickTranslate in
  let i := List.length (UI.requests s) in
  let answer := Relay.handler h fetch (translation_request s) in
  let shown := UI.step h asked (UI.RelaySettles i (inr (snd answer))) in
  nth_error (UI.requests asked) i = Some (translation_request s)
  /\ fst answer = []
  /\ UI.isLoading shown = false
  /\ UI.error shown = Some (utf16 "翻译失败: 缺少API密钥配置").
Proof.
  intros Hb Hk asked i answer shown.
  pose proof (translate_queued h s Hb) as Hq.
  fold asked in Hq.
  assert (Hn : nth_error (UI.requests asked) i = Some (translation_request s)).
  { rewrite Hq. unfold i. rewrite nth_error_app2, Nat.sub_diag; auto. }
  assert (Ha : answer = ([], failure Relay.msg_missing_key)).
  { unfold answer.
    now rewrite (RelayFacts.handler_before_fetch h fetch _ _
                   (RelayMore.missing_key_rejected _ Hk)). }
  split; [exact Hn|]. split; [now rewrite Ha|].
  destruct (settle_cells h asked i _ (inr (snd answer)) Hn)
    as (_ & He & Hl & _).
  fold shown in He, Hl. split; [exact Hl|].
  rewrite He, Ha. now destruct asked.
Qed.

Lemma missing_key_shown_witness :
  UI.error
    (UI.step RefHost.host
       (UI.step RefHost.host button_shown UI.ClickTranslate)
       (UI.RelaySettles 0
          (inr (snd (Relay.handler RefHost.host
                       (RelayExamples.answers true "OK" [])
                       (translation_request button_shown))))))
  = Some (utf16 "翻译失败: 缺少API密钥配置").
Proof.
  refine (proj2 (proj2 (proj2
            (missing_key_shown RefHost.host
               (RelayExamples.answers true "OK" []) button_shown _ _))));
    reflexivity.
Defined.

(** X14: whatever the provider does, once the relay's answer to a
    pending call arrives the popup is no longer loading, and it holds
    either a message that starts with [翻译失败: ], with the
    translation left as it was, or a non-empty translation from a
    successful answer, with the error left as it was. *)
Theorem every_answer_displayed
        (h : Host) (fetch : Relay.http_request -> Relay.fetch_outcome)
        (s : UI.state) (i : nat) (b : jsval) :
  nth_error (UI.requests s) i = Some b ->
  let r := snd (Relay.handler h fetch b) in
  let s' := UI.step h s (UI.RelaySettles i (inr r)) in
  UI.isLoading s' = false
  /\ ((exists m, UI.error s' = Some (utf16 "翻译失败: " +++ m))
       /\ UI.translatedText s' = UI.translatedText s
      \/ (Relay.success r = true
          /\ Relay.result r = Some (UI.translatedText s')
          /\ truthy (UI.translatedText s') = true
          /\ UI.error s' = UI.error s)).
Proof.
  intros Hn r s'.
  destruct (settle_cells h s i b (inr r) Hn) as (Ht & He & Hl & _).
  fold s' in Ht, He, Hl. split; [exact Hl|].
  rewrite Ht, He. clear Ht He Hl s'.
  destruct (RelayMore.handler_answer h fetch b) as [(m & E)|(v & Hv & E)];
    fold r in E; rewrite E; clear E r;
    unfold UI.translateText_resume; simpl.
  - left. destruct m; destruct s; simpl; eauto.
  - destruct (truthy v) eqn:Tv.
    + right. destruct s; simpl. auto.
    + left. destruct s; simpl; eauto.
Qed.

Lemma every_answer_displayed_witness :
  UI.isLoading
    (UI.step RefHost.host translating
       (UI.RelaySettles 0
          (inr (snd (Relay.handler RefHost.host
                       (RelayExamples.answers true "OK" [])
                       (translation_request button_shown))))))
  = false.
Proof.
  refine (proj1 (every_answer_displayed RefHost.host
                   (RelayExamples.answers true "OK" []) translating 0
                   (translation_request button_shown) _)).
  reflexivity.
Defined.

End EndToEnd.

(* ================================================================== *)
(** ** The draggable container *)

Module DraggableFacts.
Import DraggableBox.

Lemma moves_at_rest (notify : bool) (b : box) (ps : list (Z * Z)) :
  grips b = [] -> run notify b (moves ps) = b.
Proof.
  intros Hg. induction ps as [|p ps IH]; [reflexivity|].
  change (run notify (handle notify (Move (fst p) (snd p)) b) (moves ps) = b).
  assert (E : handle notify (Move (fst p) (snd p)) b = b)
    by (unfold handle; now rewrite Hg).
  now rewrite E.
Qed.

(** X19: a box on which no drag is going on stays where its owner
    put it: as long as no press lands in the 30 pixels at its top,
    presses, moves and releases neither move it nor report anything
    to the owner, and no drag begins. *)
Theorem no_drag_without_handle (notify : bool) (es : list pointer_event)
        (b : box) :
  at_rest b -> forallb (fun e => negb (in_handle e)) es = true ->
  let b' := run notify b es in
  at_rest b' /\ reported b' = reported b
  /\ position b' = last_placed es (position b).
Proof.
  revert b. induction es as [|e es IH]; intros b Hr H;
    [repeat split; apply Hr|].
  simpl in H. apply andb_prop in H. destruct H as (He & Hes).
  destruct Hr as (Hg & Hs & Hd).
  assert (Hb : (handle notify e b = b /\ last_placed (e :: es) (position b)
                                        = last_placed es (position b))
               \/ exists q, e = Placed q).
  { destruct e; simpl in *.
    - left. unfold handleMouseDown.
      destruct (clientY - rect_top <? 30); [discriminate|auto].
    - left. now rewrite Hg.
    - left. now rewrite Hg.
    - right. eauto. }
  destruct Hb as [(Hb & Hp)|(q & ->)].
  - cbv zeta. simpl run. rewrite Hb, Hp. apply IH; auto. repeat split; auto.
  - cbv zeta. simpl run.
    apply (IH (handle notify (Placed q) b)); [|exact Hes].
    repeat split; assumption.
Qed.

Lemma no_drag_without_handle_witness :
  position (run true (mount {| UI.x := 120; UI.y := 245 |})
              [Press 130 290 120 245; Move 400 400; Release; Move 7 7])
  = {| UI.x := 120; UI.y := 245 |}.
Proof.
  refine (proj2 (proj2 (no_drag_without_handle true
            [Press 130 290 120 245; Move 400 400; Release; Move 7 7]
            (mount {| UI.x := 120; UI.y := 245 |}) _ _))).
  - repeat split.
  - reflexivity.
Defined.


(** *** A drag *)

Lemma move_with_one_grip (b : box) (g : grip) (x y : Z) :
  grips b = [g] -> dragStarted b = true ->
  handle true (Move x y) b
  = {| isDragging := isDragging b;
       position := {| UI.x := x - offsetX g; UI.y := y - offsetY g |};
       dragStarted := true;
       grips := [g];
       reported := reported b
                   ++ [{| UI.x := x - offsetX g; UI.y := y - offsetY g |}] |}.
Proof.
  intros Hg Hs. unfold handle. rewrite Hg. simpl.
  unfold handleGlobalMouseMove. rewrite Hs, Hg. reflexivity.
Qed.

Lemma dragged_to_offset (cx cy rl rt : Z) (p : Z * Z) :
  {| UI.x := fst p - (cx - rl); UI.y := snd p - (cy - rt) |}
  = dragged_to cx cy rl rt p.
Proof. unfold dragged_to. f_equal; lia. Qed.

Lemma last_cons {A : Type} (l : list A) (a x : A) :
  last (a :: l) x = last l a.
Proof.
  revert a x. induction l as [|b l IH]; intros a x; [reflexivity|].
  change (last (a :: b :: l) x) with (last (b :: l) x).
  now rewrite (IH b x), (IH b a).
Qed.

Lemma moves_with_one_grip (cx cy rl rt : Z) (ps : list (Z * Z)) (b : box) :
  grips b = [{| offsetX := cx - rl; offsetY := cy - rt |}] ->
  dragStarted b = true ->
  let b' := run true b (moves ps) in
  isDragging b' = isDragging b
  /\ grips b' = grips b /\ dragStarted b' = true
  /\ reported b' = reported b ++ map (dragged_to cx cy rl rt) ps
  /\ position b' = last (map (dragged_to cx cy rl rt) ps) (position b).
Proof.
  revert b. induction ps as [|p ps IH]; intros b Hg Hs.
  - simpl. rewrite app_nil_r. auto.
  - cbv zeta.
    change (run true b (moves (p :: ps)))
      with (run true (handle true (Move (fst p) (snd p)) b) (moves ps)).
    rewrite (move_with_one_grip b _ _ _ Hg Hs). simpl offsetX. simpl offsetY.
    rewrite dragged_to_offset.
    match goal with
    | |- context [run true ?x (moves ps)] =>
        destruct (IH x) as (A & B & C & D & E); [reflexivity|reflexivity|]
    end.
    rewrite A, B, C, D, E. cbn [isDragging grips reported position map].
    rewrite <- app_assoc, last_cons. repeat split; auto.
Qed.

Lemma release_all (l r : list grip) (b : box) :
  grips b = l ++ r ->
  let b' := fold_left handleGlobalMouseUp l b in
  grips b' = r /\ position b' = position b /\ reported b' = reported b
  /\ (l <> [] -> dragStarted b' = false /\ isDragging b' = false).
Proof.
  revert b. induction l as [|g l IH]; intros b Hg.
  - simpl. repeat split; auto; congruence.
  - simpl.
    destruct (IH (handleGlobalMouseUp b g)) as (A & B & C & D).
    + simpl. rewrite Hg. simpl. unfold same_grip.
      now rewrite !Z.eqb_refl.
    + cbv zeta in *. rewrite A, B, C. repeat split.
      * destruct l as [|g' l]; [reflexivity|]. apply D. discriminate.
      * destruct l as [|g' l]; [reflexivity|]. apply D. discriminate.
Qed.

(** X20: a press in the top 30 pixels of a resting box starts a drag;
    from then on every move of the pointer puts the box where it was
    plus the pointer's displacement since the press, so the point
    that was grabbed stays under the pointer, and reports that
    position to the owner. *)
Theorem drag_follows_pointer (b : box) (cx cy rl rt : Z)
        (ps : list (Z * Z)) :
  at_rest b -> cy - rt < 30 ->
  let b' := run true b (Press cx cy rl rt :: moves ps) in
  isDragging b' = true
  /\ reported b' = reported b ++ map (dragged_to cx cy rl rt) ps
  /\ position b' = last (map (dragged_to cx cy rl rt) ps) (position b).
Proof.
  intros (Hg & Hs & Hd) Hy.
  change (run true b (Press cx cy rl rt :: moves ps))
    with (run true (handle true (Press cx cy rl rt) b) (moves ps)).
  assert (E : handle true (Press cx cy rl rt) b
              = {| isDragging := true; position := position b;
                   dragStarted := true;
                   grips := [{| offsetX := cx - rl; offsetY := cy - rt |}];
                   reported := reported b |}).
  { unfold handle, handleMouseDown.
    replace (cy - rt <? 30) with true by (symmetry; apply Z.ltb_lt; lia).
    now rewrite Hg. }
  rewrite E.
  match goal with
  | |- context [run true ?x (moves ps)] =>
      destruct (moves_with_one_grip cx cy rl rt ps x)
        as (A & _ & _ & D & F); [reflexivity|reflexivity|]
  end.
  cbv zeta in *. now rewrite A, D, F.
Qed.

Lemma drag_follows_pointer_witness :
  position (run true (mount {| UI.x := 120; UI.y := 245 |})
              (Press 130 250 120 245 :: moves [(131, 250); (180, 300)]))
  = {| UI.x := 170; UI.y := 295 |}.
Proof.
  refine (proj2 (proj2 (drag_follows_pointer
            (mount {| UI.x := 120; UI.y := 245 |}) 130 250 120 245
            [(131, 250); (180, 300)] _ _))).
  - repeat split.
  - lia.
Defined.

(** X21: a release takes every listener pair off [window] and leaves
    the box where it is; after it, moves of the pointer neither move
    the box nor report anything, and if a drag was going on it is
    over. *)
Theorem release_ends_drag (notify : bool) (b : box) (ps : list (Z * Z)) :
  let b' := handle notify Release b in
  grips b' = [] /\ position b' = position b /\ reported b' = reported b
  /\ run notify b' (moves ps) = b'
  /\ (grips b <> [] -> at_rest b').
Proof.
  destruct (release_all (grips b) [] b) as (A & B & C & D);
    [now rewrite app_nil_r|].
  cbv zeta in *. unfold handle. repeat split; auto.
  - now apply moves_at_rest.
  - now apply D.
  - now apply D.
Qed.

End DraggableFacts.

(* ================================================================== *)
(** ** The collapsible text and the settings form *)

Module CollapsibleFacts.
Import CollapsibleText.

Lemma lines_above (l height maxRows : Z) :
  0 < l -> (maxRows <? - ((- height) / l)) = (maxRows * l <? height).
Proof.
  intros Hl.
  destruct (maxRows * l <? height) eqn:E.
  - apply Z.ltb_lt in E. apply Z.ltb_lt.
    assert ((- height) / l < - maxRows); [|lia].
    apply Z.div_lt_upper_bound; [exact Hl|]. nia.
  - apply Z.ltb_ge in E. apply Z.ltb_ge.
    assert (- maxRows <= (- height) / l); [|lia].
    apply Z.div_le_lower_bound; [exact Hl|]. nia.
Qed.

(** X22: the control that expands and collapses the text is offered
    exactly when the text is taller than [maxRows] lines, a line
    being the computed line height, or 20 pixels when that is not a
    number or is zero; and the text is clipped exactly when the
    control is offered and the text is not expanded. *)
Theorem collapse_offered (maxRows : Z) (parsed : option Z) (height : Z)
        (s : text_state) :
  0 < line_height parsed ->
  let v := view (measure maxRows parsed height s) in
  (control v <> None <-> maxRows * line_height parsed < height)
  /\ (clipped v = true <->
      maxRows * line_height parsed < height /\ isExpanded s = false).
Proof.
  intros Hl. unfold view, measure, lines. simpl.
  rewrite (lines_above _ height maxRows Hl).
  destruct (maxRows * line_height parsed <? height) eqn:E.
  - apply Z.ltb_lt in E. split; split; intros; auto; try discriminate.
    + split; [exact E|]. now destruct (isExpanded s).
    + destruct H as (_ & ->). reflexivity.
  - apply Z.ltb_ge in E.
    split; split; intros H; try lia; try congruence; try discriminate.
Qed.

Lemma collapse_offered_witness :
  control (view (measure 3 None 61 (mount false)))
  <> None
  /\ clipped (view (measure 3 (Some 24) 72 (mount false))) <> true.
Proof.
  split.
  - apply (collapse_offered 3 None 61 (mount false)); simpl; lia.
  - intros H.
    apply (collapse_offered 3 (Some 24) 72 (mount false)) in H;
      simpl in *; lia.
Defined.

End CollapsibleFacts.

Module SettingFacts.
Import Setting.

(** X23: the settings form starts from the relay's own defaults.
    Saved as it comes, it leaves the feature enabled and holds no
    key, so that a translation is refused before any request is
    sent; saved with a key typed in, it makes the relay send what it
    sends when only the key is configured. *)
Theorem form_defaults_agree
        (h : Host) (fetch : Relay.http_request -> Relay.fetch_outcome)
        (t key : jsstring) :
  key <> [] ->
  let body (data : jsval) :=
    JObj [(Relay.k_text, JStr t); (Relay.k_apiConfig, data)] in
  UI.enabled_in (onSubmit initial_form) = true
  /\ Relay.handler h fetch (body (onSubmit initial_form))
     = ([], UIExamples.failure (utf16 "缺少API密钥配置"))
  /\ fst (Relay.handler h fetch (body (onSubmit (with_key key initial_form))))
     = fst (Relay.handler h fetch
              (body (JObj [(Relay.k_apiKey, JStr key)]))).
Proof.
  intros Hk body. split; [reflexivity|]. split.
  - now rewrite (RelayFacts.handler_before_fetch h fetch _ _
                   (RelayMore.missing_key_rejected
                      (body (onSubmit initial_form)) eq_refl)).
  - rewrite (RelayFacts.handler_after_fetch h fetch _ _
               (RelayMore.build_request_strings
                  (body (onSubmit (with_key key initial_form))) t key
                  [(UI.k_enabled, JBool true);
                   (Relay.k_apiUrl, JStr Relay.default_url);
                   (Relay.k_apiKey, JStr key);
                   (Relay.k_model, JStr Relay.default_model)]
                  eq_refl eq_refl eq_refl Hk I I)).
    rewrite (RelayFacts.handler_after_fetch h fetch _ _
               (RelayMore.build_request_strings
                  (body (JObj [(Relay.k_apiKey, JStr key)])) t key
                  [(Relay.k_apiKey, JStr key)]
                  eq_refl eq_refl eq_refl Hk I I)).
    reflexivity.
Qed.

Lemma form_defaults_agree_witness :
  fst (Relay.handler RefHost.host (RelayExamples.answers true "OK" [])
         (JObj [(Relay.k_text, JStr (utf16 "hello"));
                (Relay.k_apiConfig,
                 onSubmit (with_key (utf16 "sk-1") initial_form))]))
  = fst (Relay.handler RefHost.host (RelayExamples.answers true "OK" [])
           (RelayExamples.request "hello" "sk-1")).
Proof.
  refine (proj2 (proj2 (form_defaults_agree RefHost.host
                          (RelayExamples.answers true "OK" [])
                          (utf16 "hello") (utf16 "sk-1") _))).
  discriminate.
Defined.

End SettingFacts.
